(** * plumplay: the EHR assistant workflow graph

    A shallow embedding of the LangGraph workflow of the medplum demo
    ([app/utilities/new.ts] and its earlier variant), of the state channels
    and their reducers, of the agent nodes, of the routing functions and of
    the graph's edges, with the properties the specification states about
    them. *)

From Stdlib Require Import ZArith Ascii String List Bool Lia.
From stdpp Require Import base option list strings.

Open Scope string_scope.
Open Scope list_scope.

Set Warnings "-register-all".

(** ** JavaScript values

    TypeScript types are erased at run time: a channel typed
    [PatientCreate | null] holds whatever value a node returned, and
    [JSON.parse] produces untyped values.  Channels therefore hold [jsval]. *)

Module JS.

Inductive jsval : Type :=
| JUndefined
| JNull
| JBool (b : bool)
| JNum (lexeme : string)
| JStr (s : string)
| JArr (elems : list jsval)
| JObj (members : list (string * jsval)).

(** [x == null], the test behind [??] and [?.]. *)
Definition nullish (v : jsval) : bool :=
  match v with
  | JUndefined | JNull => true
  | _ => false
  end.

(** [y ?? x] *)
Definition coalesce (y x : jsval) : jsval :=
  if nullish y then x else y.

(** [v === s] for a string literal [s]. *)
Definition strict_eq_str (v : jsval) (s : string) : bool :=
  match v with
  | JStr t => String.eqb t s
  | _ => false
  end.

Definition is_digit (c : ascii) : bool :=
  let n := nat_of_ascii c in (48 <=? n)%nat && (n <=? 57)%nat.

(** The digits of the mantissa of a number literal (the part before any
    exponent) are all [0]. *)
Fixpoint mantissa_zero (cs : list ascii) : bool :=
  match cs with
  | [] => true
  | c :: cs' =>
      if (Ascii.eqb c "e" || Ascii.eqb c "E")%char then true
      else if is_digit c then Ascii.eqb c "0" && mantissa_zero cs'
      else mantissa_zero cs'
  end.

(** [ToBoolean]: what [if (v)] and [v ? a : b] test.  A number is kept as
    its decimal literal, and is falsy when the literal denotes zero (a
    literal so small that it rounds to zero is not told apart here). *)
Definition truthy (v : jsval) : bool :=
  match v with
  | JUndefined | JNull => false
  | JBool b => b
  | JNum lx => negb (mantissa_zero (list_ascii_of_string lx))
  | JStr s => negb (String.eqb s EmptyString)
  | JArr _ | JObj _ => true
  end.

(** Property assignment [o[k] = v] on the member list of an object: an
    existing key keeps its position and takes the new value, a new key is
    added at the end (that JavaScript lists integer-like keys first is not
    modelled). *)
Fixpoint obj_set (k : string) (v : jsval) (ms : list (string * jsval))
  : list (string * jsval) :=
  match ms with
  | [] => [(k, v)]
  | (k', v') :: ms' =>
      if String.eqb k' k then (k', v) :: ms' else (k', v') :: obj_set k v ms'
  end.

(** Property read [o[k]] on a member list; [None] when the key is absent. *)
Fixpoint obj_get (k : string) (ms : list (string * jsval)) : option jsval :=
  match ms with
  | [] => None
  | (k', v) :: ms' => if String.eqb k' k then Some v else obj_get k ms'
  end.

End JS.
Export JS.

(** ** [JSON.parse]

    The built-in parser, as a lexer and a pushdown parser that both read
    their input once from left to right, one character (one token) at a
    time.  Numbers are kept as their literal. *)

Module Json.

Inductive token : Type :=
| TLBrace | TRBrace | TLBracket | TRBracket | TColon | TComma
| TString (s : string)
| TNumber (lexeme : string)
| TTrue | TFalse | TNullTok.

(** States of the automaton of number literals: an optional minus sign, an
    integer part without a leading zero, an optional fraction, an optional
    exponent. *)
Inductive num_state : Type :=
| NMinus | NZero | NInt | NDot | NFrac | NExp | NExpSign | NExpDigits.

Definition num_accepting (n : num_state) : bool :=
  match n with
  | NZero | NInt | NFrac | NExpDigits => true
  | NMinus | NDot | NExp | NExpSign => false
  end.

Definition is_exp (c : ascii) : bool := (Ascii.eqb c "e" || Ascii.eqb c "E")%char.
Definition is_sign (c : ascii) : bool := (Ascii.eqb c "+" || Ascii.eqb c "-")%char.

Definition num_step (n : num_state) (c : ascii) : option num_state :=
  match n with
  | NMinus =>
      if Ascii.eqb c "0" then Some NZero
      else if is_digit c then Some NInt else None
  | NZero =>
      if Ascii.eqb c "." then Some NDot
      else if is_exp c then Some NExp else None
  | NInt =>
      if is_digit c then Some NInt
      else if Ascii.eqb c "." then Some NDot
      else if is_exp c then Some NExp else None
  | NDot => if is_digit c then Some NFrac else None
  | NFrac =>
      if is_digit c then Some NFrac
      else if is_exp c then Some NExp else None
  | NExp =>
      if is_sign c then Some NExpSign
      else if is_digit c then Some NExpDigits else None
  | NExpSign => if is_digit c then Some NExpDigits else None
  | NExpDigits => if is_digit c then Some NExpDigits else None
  end.

Definition hex_value (c : ascii) : option N :=
  let n := N_of_ascii c in
  if ((48 <=? n) && (n <=? 57))%N then Some (n - 48)%N
  else if ((65 <=? n) && (n <=? 70))%N then Some (n - 55)%N
  else if ((97 <=? n) && (n <=? 102))%N then Some (n - 87)%N
  else None.

(** The UTF-8 bytes of a code unit below [0x10000]; an escaped surrogate
    pair is decoded one code unit at a time. *)
Definition utf8_of_code (n : N) : list ascii :=
  if (n <? 128)%N then [ascii_of_N n]
  else if (n <? 2048)%N then
    [ascii_of_N (192 + n / 64); ascii_of_N (128 + n mod 64)]
  else
    [ascii_of_N (224 + n / 4096); ascii_of_N (128 + (n / 64) mod 64);
     ascii_of_N (128 + n mod 64)].

(** Lexer states; string contents are accumulated in reverse. *)
Inductive lex_state : Type :=
| LIdle
| LLit (rest : list ascii) (tok : token)
| LStr (acc : list ascii)
| LEsc (acc : list ascii)
| LUni (acc : list ascii) (code : N) (todo : nat)
| LNum (n : num_state) (acc : list ascii).

Definition string_of_rev (acc : list ascii) : string :=
  string_of_list_ascii (rev acc).

(** The double quote character. *)
Definition dquote : ascii := ascii_of_nat 34.

Definition is_ws (c : ascii) : bool :=
  let n := nat_of_ascii c in
  (n =? 32)%nat || (n =? 9)%nat || (n =? 10)%nat || (n =? 13)%nat.

(** One character read between tokens. *)
Definition lex_idle (c : ascii) : option (lex_state * list token) :=
  if is_ws c then Some (LIdle, [])
  else if Ascii.eqb c "{" then Some (LIdle, [TLBrace])
  else if Ascii.eqb c "}" then Some (LIdle, [TRBrace])
  else if Ascii.eqb c "[" then Some (LIdle, [TLBracket])
  else if Ascii.eqb c "]" then Some (LIdle, [TRBracket])
  else if Ascii.eqb c ":" then Some (LIdle, [TColon])
  else if Ascii.eqb c "," then Some (LIdle, [TComma])
  else if Ascii.eqb c dquote then Some (LStr [], [])
  else if Ascii.eqb c "t" then Some (LLit ["r"; "u"; "e"]%char TTrue, [])
  else if Ascii.eqb c "f" then Some (LLit ["a"; "l"; "s"; "e"]%char TFalse, [])
  else if Ascii.eqb c "n" then Some (LLit ["u"; "l"; "l"]%char TNullTok, [])
  else if Ascii.eqb c "-" then Some (LNum NMinus [c], [])
  else if Ascii.eqb c "0" then Some (LNum NZero [c], [])
  else if is_digit c then Some (LNum NInt [c], [])
  else None.

Definition unescape (c : ascii) : option ascii :=
  if Ascii.eqb c dquote then Some c
  else if Ascii.eqb c "\" then Some c
  else if Ascii.eqb c "/" then Some c
  else if Ascii.eqb c "b" then Some (ascii_of_nat 8)
  else if Ascii.eqb c "f" then Some (ascii_of_nat 12)
  else if Ascii.eqb c "n" then Some (ascii_of_nat 10)
  else if Ascii.eqb c "r" then Some (ascii_of_nat 13)
  else if Ascii.eqb c "t" then Some (ascii_of_nat 9)
  else None.

Definition lex_step (st : lex_state) (c : ascii)
  : option (lex_state * list token) :=
  match st with
  | LIdle => lex_idle c
  | LLit [] _ => None
  | LLit [e] tok => if Ascii.eqb c e then Some (LIdle, [tok]) else None
  | LLit (e :: rest) tok =>
      if Ascii.eqb c e then Some (LLit rest tok, []) else None
  | LStr acc =>
      if Ascii.eqb c dquote then Some (LIdle, [TString (string_of_rev acc)])
      else if Ascii.eqb c "\" then Some (LEsc acc, [])
      else if (nat_of_ascii c <? 32)%nat then None
      else Some (LStr (c :: acc), [])
  | LEsc acc =>
      if Ascii.eqb c "u" then Some (LUni acc 0%N 4, [])
      else match unescape c with
           | Some d => Some (LStr (d :: acc), [])
           | None => None
           end
  | LUni acc code todo =>
      match hex_value c with
      | None => None
      | Some h =>
          let code' := (16 * code + h)%N in
          match todo with
          | 0%nat => None
          | 1%nat => Some (LStr (rev (utf8_of_code code') ++ acc), [])
          | S todo' => Some (LUni acc code' todo', [])
          end
      end
  | LNum n acc =>
      match num_step n c with
      | Some n' => Some (LNum n' (c :: acc), [])
      | None =>
          if num_accepting n then
            match lex_idle c with
            | Some (st', toks) => Some (st', TNumber (string_of_rev acc) :: toks)
            | None => None
            end
          else None
      end
  end.

(** What is left to emit when the input ends. *)
Definition lex_end (st : lex_state) : option (list token) :=
  match st with
  | LIdle => Some []
  | LNum n acc =>
      if num_accepting n then Some [TNumber (string_of_rev acc)] else None
  | _ => None
  end.

Fixpoint lex (st : lex_state) (cs : list ascii) : option (list token) :=
  match cs with
  | [] => lex_end st
  | c :: cs' =>
      match lex_step st c with
      | None => None
      | Some (st', toks) =>
          match lex st' cs' with
          | None => None
          | Some rest => Some (toks ++ rest)
          end
      end
  end.

Definition tokenize (s : string) : option (list token) :=
  lex LIdle (list_ascii_of_string s).

(** The enclosing containers of the value being read. *)
Inductive frame : Type :=
| FArr (done : list jsval)
| FObj (done : list (string * jsval)) (key : string).

Inductive pmode : Type :=
| MValue
| MArrOpen
| MArrNext (done : list jsval)
| MObjOpen
| MObjKey (done : list (string * jsval))
| MObjColon (done : list (string * jsval)) (key : string)
| MObjNext (done : list (string * jsval))
| MEnd (v : jsval).

Definition pstate : Type := (pmode * list frame)%type.

(** A value is complete: hand it to the enclosing container. *)
Definition complete (v : jsval) (stack : list frame) : pstate :=
  match stack with
  | [] => (MEnd v, [])
  | FArr done :: stack' => (MArrNext (done ++ [v]), stack')
  | FObj done key :: stack' => (MObjNext (obj_set key v done), stack')
  end.

Definition start_value (t : token) (stack : list frame) : option pstate :=
  match t with
  | TLBrace => Some (MObjOpen, stack)
  | TLBracket => Some (MArrOpen, stack)
  | TString s => Some (complete (JStr s) stack)
  | TNumber lx => Some (complete (JNum lx) stack)
  | TTrue => Some (complete (JBool true) stack)
  | TFalse => Some (complete (JBool false) stack)
  | TNullTok => Some (complete JNull stack)
  | TRBrace | TRBracket | TColon | TComma => None
  end.

Definition parse_step (st : pstate) (t : token) : option pstate :=
  let '(mode, stack) := st in
  match mode with
  | MValue => start_value t stack
  | MArrOpen =>
      match t with
      | TRBracket => Some (complete (JArr []) stack)
      | _ => start_value t (FArr [] :: stack)
      end
  | MArrNext done =>
      match t with
      | TComma => Some (MValue, FArr done :: stack)
      | TRBracket => Some (complete (JArr done) stack)
      | _ => None
      end
  | MObjOpen =>
      match t with
      | TRBrace => Some (complete (JObj []) stack)
      | TString k => Some (MObjColon [] k, stack)
      | _ => None
      end
  | MObjKey done =>
      match t with
      | TString k => Some (MObjColon done k, stack)
      | _ => None
      end
  | MObjColon done k =>
      match t with
      | TColon => Some (MValue, FObj done k :: stack)
      | _ => None
      end
  | MObjNext done =>
      match t with
      | TComma => Some (MObjKey done, stack)
      | TRBrace => Some (complete (JObj done) stack)
      | _ => None
      end
  | MEnd _ => None
  end.

Fixpoint parse_tokens (st : pstate) (ts : list token) : option jsval :=
  match ts with
  | [] => match st with
          | (MEnd v, []) => Some v
          | _ => None
          end
  | t :: ts' =>
      match parse_step st t with
      | None => None
      | Some st' => parse_tokens st' ts'
      end
  end.

(** [JSON.parse(s)]: [None] stands for the [SyntaxError] it throws. *)
Definition parse (s : string) : option jsval :=
  match tokenize s with
  | None => None
  | Some ts => parse_tokens (MValue, []) ts
  end.

End Json.

(** ** Messages and node outcomes *)

Inductive MessageType : Type := HumanMsg | AIMsg | SystemMsg | ToolMsg.

Record ToolCall : Type := {
  call_name : string;
  call_args : jsval;
  call_id : string
}.

(** A [BaseMessage].  [tool_calls] is [None] on the message classes that
    have no such property (the read gives [undefined]). *)
Record BaseMessage : Type := {
  msg_type : MessageType;
  content : string;
  name : option string;
  tool_calls : option (list ToolCall);
  tool_call_id : option string
}.

Definition AIMessage (c : string) (calls : list ToolCall) : BaseMessage :=
  {| msg_type := AIMsg; content := c; name := None;
     tool_calls := Some calls; tool_call_id := None |}.

Definition HumanMessage (c : string) : BaseMessage :=
  {| msg_type := HumanMsg; content := c; name := None;
     tool_calls := None; tool_call_id := None |}.

Definition SystemMessage (c : string) : BaseMessage :=
  {| msg_type := SystemMsg; content := c; name := None;
     tool_calls := None; tool_call_id := None |}.

Definition ToolMessage (c : string) (nm id : string) : BaseMessage :=
  {| msg_type := ToolMsg; content := c; name := Some nm;
     tool_calls := None; tool_call_id := Some id |}.

Inductive js_error : Type :=
| TypeError
| SyntaxError
| BackendError (msg : string).

(** What running a node gives: a value, the [NodeInterrupt] signal, or any
    other exception. *)
Inductive outcome (A : Type) : Type :=
| Returned (a : A)
| Interrupted (reason : string)
| Threw (e : js_error).
Arguments Returned {A} a.
Arguments Interrupted {A} reason.
Arguments Threw {A} e.

(** What [agent.invoke] gives: the model's message, or a failure of the
    backend. *)
Inductive invoke_result : Type :=
| Replied (m : BaseMessage)
| Failed (e : js_error).

(** [messages[messages.length - 1]]; [None] is [undefined]. *)
Definition last_message (messages : list BaseMessage) : option BaseMessage :=
  last messages.

(** [lastMessage?.tool_calls && lastMessage.tool_calls.length > 0] *)
Definition has_tool_calls (lastMessage : option BaseMessage) : bool :=
  match lastMessage with
  | None => false
  | Some m =>
      match tool_calls m with
      | None => false
      | Some calls => (0 <? length calls)%nat
      end
  end.

(** ** State channels ([AgentState]) *)

Record AgentState : Type := {
  messages : list BaseMessage;
  sender : jsval;
  patientCreate : jsval;
  patient : jsval;
  patientUpdate : jsval;
  resourceApproved : jsval
}.

(** A partial update: the object a node returns.  [None] is a key the
    object does not have. *)
Record Update : Type := {
  u_messages : option (list BaseMessage);
  u_sender : option jsval;
  u_patientCreate : option jsval;
  u_patient : option jsval;
  u_patientUpdate : option jsval;
  u_resourceApproved : option jsval
}.

Definition no_update : Update :=
  {| u_messages := None; u_sender := None; u_patientCreate := None;
     u_patient := None; u_patientUpdate := None; u_resourceApproved := None |}.

(** The scalar and record channels. *)
Inductive channel : Type :=
| Sender | PatientCreate | Patient | PatientUpdate | ResourceApproved.

Definition read (c : channel) (s : AgentState) : jsval :=
  match c with
  | Sender => sender s
  | PatientCreate => patientCreate s
  | Patient => patient s
  | PatientUpdate => patientUpdate s
  | ResourceApproved => resourceApproved s
  end.

Definition written (c : channel) (u : Update) : option jsval :=
  match c with
  | Sender => u_sender u
  | PatientCreate => u_patientCreate u
  | Patient => u_patient u
  | PatientUpdate => u_patientUpdate u
  | ResourceApproved => u_resourceApproved u
  end.

(** Modelled from the spec: the executor's merge step (section 4.1), which
    is the library's and not part of the repository: for every channel
    present in the partial update the channel's reducer is applied to the
    current value, and a channel absent from it is left untouched. *)
Definition apply_channel {A : Type} (reducer : A -> A -> A)
  (old : A) (incoming : option A) : A :=
  match incoming with
  | Some y => reducer old y
  | None => old
  end.

(** The most recent message of the history carries at least one tool-call
    request. *)
Definition carries_tool_calls (state : AgentState) : Prop :=
  exists (m : BaseMessage) (c : ToolCall) (cs : list ToolCall),
    last_message (messages state) = Some m /\ tool_calls m = Some (c :: cs).

(** ** Graph definitions

    What [new StateGraph(...)], [addNode], [addEdge] and
    [addConditionalEdges] record: the node names, the unconditional edges,
    and per source node a routing function with an optional map from its
    results to node names. *)

Definition START : string := "__start__".

Record Branch : Type := {
  br_source : string;
  br_route : AgentState -> jsval;
  br_paths : option (list (string * string))
}.

Record StateGraph : Type := {
  nodes : list string;
  edges : list (string * string);
  branches : list Branch
}.

Definition empty_graph : StateGraph :=
  {| nodes := []; edges := []; branches := [] |}.

Definition addNode (n : string) (g : StateGraph) : StateGraph :=
  {| nodes := nodes g ++ [n]; edges := edges g; branches := branches g |}.

Definition addEdge (src dst : string) (g : StateGraph) : StateGraph :=
  {| nodes := nodes g; edges := edges g ++ [(src, dst)]; branches := branches g |}.

Definition addConditionalEdges (src : string) (route : AgentState -> jsval)
  (paths : option (list (string * string))) (g : StateGraph) : StateGraph :=
  {| nodes := nodes g; edges := edges g;
     branches := branches g ++
       [{| br_source := src; br_route := route; br_paths := paths |}] |}.

Notation "g |> f" := (f g) (at level 45, left associativity, only parsing).

Fixpoint assoc (k : string) (l : list (string * string)) : option string :=
  match l with
  | [] => None
  | (k', v) :: l' => if String.eqb k' k then Some v else assoc k l'
  end.

(** The node a branch selects on a state; [None] when the routing function's
    result names no destination (the library then fails the step). *)
Definition branch_target (b : Branch) (s : AgentState) : option string :=
  match br_route b s with
  | JStr key =>
      match br_paths b with
      | None => Some key
      | Some paths => assoc key paths
      end
  | _ => None
  end.

Definition edges_from (g : StateGraph) (n : string) : list string :=
  map snd (filter (fun e => String.eqb (fst e) n) (edges g)).

Definition branches_from (g : StateGraph) (n : string) : list Branch :=
  filter (fun b => String.eqb (br_source b) n) (branches g).

(** The nodes that run next once node [n] has completed and its update has
    been merged into [s]. *)
Definition next_nodes (g : StateGraph) (n : string) (s : AgentState)
  : option (list string) :=
  match mapM (fun b => branch_target b s) (branches_from g n) with
  | None => None
  | Some targets => Some (edges_from g n ++ targets)
  end.

(** ** The workflow of [utilities/new.ts] *)

Module New.

(** [reducer: (x, y) => x.concat(y)] *)
Definition messages_reducer (x y : list BaseMessage) : list BaseMessage :=
  x ++ y.

(** [reducer: (x, y) => y ?? x] *)
Definition sender_reducer (x y : jsval) : jsval := coalesce y x.

(** [reducer: (_, y) => y] *)
Definition patientCreate_reducer (_ y : jsval) : jsval := y.
Definition patient_reducer (_ y : jsval) : jsval := y.
Definition patientUpdate_reducer (_ y : jsval) : jsval := y.
Definition resourceApproved_reducer (_ y : jsval) : jsval := y.

Definition reducer (c : channel) : jsval -> jsval -> jsval :=
  match c with
  | Sender => sender_reducer
  | PatientCreate => patientCreate_reducer
  | Patient => patient_reducer
  | PatientUpdate => patientUpdate_reducer
  | ResourceApproved => resourceApproved_reducer
  end.

(** The channels' [default] values; [messages] declares none. *)
Definition initial_state : AgentState :=
  {| messages := [];
     sender := JStr "user";
     patientCreate := JNull;
     patient := JNull;
     patientUpdate := JNull;
     resourceApproved := JNull |}.

(** Modelled from the spec: the merge of a partial update into the state
    (section 4.1), the library's step between two nodes: channel by channel,
    with the reducers above. *)
Definition merge (s : AgentState) (u : Update) : AgentState :=
  {| messages := apply_channel messages_reducer (messages s) (u_messages u);
     sender := apply_channel sender_reducer (sender s) (u_sender u);
     patientCreate :=
       apply_channel patientCreate_reducer (patientCreate s) (u_patientCreate u);
     patient := apply_channel patient_reducer (patient s) (u_patient u);
     patientUpdate :=
       apply_channel patientUpdate_reducer (patientUpdate s) (u_patientUpdate u);
     resourceApproved :=
       apply_channel resourceApproved_reducer (resourceApproved s)
         (u_resourceApproved u) |}.

(** A run of merge steps, oldest update first. *)
Definition merge_all (s : AgentState) (us : list Update) : AgentState :=
  fold_left merge us s.

(** [{ ...state, messages: msgs, sender: name }] *)
Definition spread_with (state : AgentState) (msgs : list BaseMessage)
  (nm : string) : Update :=
  {| u_messages := Some msgs;
     u_sender := Some (JStr nm);
     u_patientCreate := Some (patientCreate state);
     u_patient := Some (patient state);
     u_patientUpdate := Some (patientUpdate state);
     u_resourceApproved := Some (resourceApproved state) |}.

Definition Runnable : Type := AgentState -> invoke_result.

Definition runAgentNode (state : AgentState) (agent : Runnable)
  (nm : string) : outcome Update :=
  if strict_eq_str (sender state) nm then Interrupted "Wait for user input"
  else
    match agent state with
    | Failed e => Threw e
    | Replied result => Returned (spread_with state [result] nm)
    end.

(** [{ ...state, messages: [...state.messages, m] }] *)
Definition with_message (state : AgentState) (m : BaseMessage) : AgentState :=
  {| messages := messages state ++ [m];
     sender := sender state;
     patientCreate := patientCreate state;
     patient := patient state;
     patientUpdate := patientUpdate state;
     resourceApproved := resourceApproved state |}.

(** [msgs.slice(-1)] *)
Definition slice_last {A : Type} (l : list A) : list A :=
  match last l with
  | Some x => [x]
  | None => []
  end.

Section Nodes.

(** The three agents that [createAgent] builds around the language model,
    and [JSON.stringify(v, null, 2)] inside a template literal. *)
Variable patientCreateAgent patientUpdateAgent resourceApprovalAgent : Runnable.
Variable JSON_stringify : jsval -> string.

Definition patientCreateNode (state : AgentState) : outcome Update :=
  runAgentNode state patientCreateAgent "Patient creater".

Definition patientUpdateNode (state : AgentState) : outcome Update :=
  runAgentNode state patientUpdateAgent "Patient updater".

Definition draftResourceApproveNode (state : AgentState) : outcome Update :=
  let prompt :=
    SystemMessage
      ("The AI assistant has initialized the new JSON resource: "
       +:+ JSON_stringify (coalesce (patientCreate state) (patientUpdate state))
       +:+ ". Please ask the user if the resource is correct. Do not show any JSON and present the data to the user in a human-readable format.") in
  match runAgentNode (with_message state prompt) resourceApprovalAgent
          "Draft resource approver" with
  | Returned result =>
      Returned
        {| u_messages := option_map slice_last (u_messages result);
           u_sender := u_sender result;
           u_patientCreate := u_patientCreate result;
           u_patient := u_patient result;
           u_patientUpdate := u_patientUpdate result;
           u_resourceApproved := u_resourceApproved result |}
  | Interrupted r => Interrupted r
  | Threw e => Threw e
  end.

End Nodes.

Definition approveResourceNode (state : AgentState) : Update :=
  {| u_messages := None;
     u_patient := Some (patientUpdate state);
     u_patientCreate := Some JNull;
     u_patientUpdate := Some JNull;
     u_resourceApproved := Some JNull;
     u_sender := Some (JStr "Resource approver") |}.

(** [JSON.parse(lastMessage.content)]: reading [content] off [undefined]
    (an empty history) throws a [TypeError], and [JSON.parse] throws a
    [SyntaxError] on a text that is not JSON. *)
Definition toolMessageUpdateStateNode (state : AgentState) : outcome jsval :=
  match last_message (messages state) with
  | None => Threw TypeError
  | Some lastMessage =>
      match Json.parse (content lastMessage) with
      | Some v => Returned v
      | None => Threw SyntaxError
      end
  end.

Definition callToolElse (elseStmt : AgentState -> string)
  (state : AgentState) : string :=
  if has_tool_calls (last_message (messages state)) then "CallTool"
  else elseStmt state.

(** The routing function on [ToolMessageUpdateState]. *)
Definition afterToolMessageUpdateState (state : AgentState) : string :=
  if strict_eq_str (sender state) "Patient creater" then "DraftResourceApprove"
  else if strict_eq_str (sender state) "Patient updater" then "DraftResourceApprove"
  else if strict_eq_str (sender state) "Draft resource approver" then
    if truthy (resourceApproved state) then "ApproveResource"
    else if truthy (patientCreate state) then "PatientCreate"
    else "PatientUpdate"
  else "PatientCreate".

(** The routing function [callToolElse(() => n)] as a branch. *)
Definition tool_or (n : string) (state : AgentState) : jsval :=
  JStr (callToolElse (fun _ => n) state).

Definition workflow : StateGraph :=
  empty_graph
  |> addNode "PatientCreate"
  |> addNode "PatientUpdate"
  |> addNode "DraftResourceApprove"
  |> addNode "ApproveResource"
  |> addNode "CallTool"
  |> addNode "ToolMessageUpdateState"
  |> addConditionalEdges "PatientCreate" (tool_or "PatientCreate") None
  |> addConditionalEdges "PatientUpdate" (tool_or "PatientUpdate") None
  |> addConditionalEdges "DraftResourceApprove" (tool_or "DraftResourceApprove") None
  |> addEdge "CallTool" "ToolMessageUpdateState"
  |> addConditionalEdges "ToolMessageUpdateState"
       (fun state => JStr (afterToolMessageUpdateState state)) None
  |> addEdge START "PatientCreate".

(** The nodes whose body is [runAgentNode]. *)
Definition agent_nodes : list string :=
  ["PatientCreate"; "PatientUpdate"; "DraftResourceApprove"].

End New.

(** ** The earlier variant of the workflow

    The second graph definition of the repository, with [router] and a map
    of its results in place of [callToolElse]. *)

Module Second.

Definition PatientCreate : string := "patient-create".
Definition PatientUpdate : string := "patient-update".
Definition ResourceApproval : string := "resource-approval".
Definition ResourceCreate : string := "resource-create".

(** [reducer: (x, y) => y ?? x ?? "user"] *)
Definition sender_reducer (x y : jsval) : jsval :=
  coalesce (coalesce y x) (JStr "user").

Definition router (state : AgentState) : string :=
  if has_tool_calls (last_message (messages state)) then "call_tool"
  else "continue".

(** [(x) => x.resourceApproved ? Agent.ResourceCreate : x.sender] *)
Definition afterResourceApproval (x : AgentState) : jsval :=
  if truthy (resourceApproved x) then JStr ResourceCreate else sender x.

Definition workflow : StateGraph :=
  empty_graph
  |> addNode PatientCreate
  |> addNode PatientUpdate
  |> addNode ResourceApproval
  |> addNode ResourceCreate
  |> addNode "approve_resource"
  |> addNode "call_tool"
  |> addConditionalEdges PatientCreate (fun s => JStr (router s))
       (Some [("continue", ResourceApproval); ("call_tool", "call_tool")])
  |> addConditionalEdges PatientUpdate (fun s => JStr (router s))
       (Some [("continue", ResourceApproval); ("call_tool", "call_tool")])
  |> addConditionalEdges ResourceApproval afterResourceApproval None
  |> addConditionalEdges ResourceCreate (fun s => JStr (router s))
       (Some [("continue", PatientUpdate); ("call_tool", "call_tool")])
  |> addConditionalEdges "call_tool" (fun x => sender x)
       (Some [("PatientUpdate", "approve_resource");
              ("PatientCreate", "approve_resource");
              ("ResourceApprove", ResourceApproval)])
  |> addEdge START PatientCreate.

(** The nodes whose body is [runAgentNode]. *)
Definition agent_nodes : list string :=
  [PatientCreate; PatientUpdate; ResourceApproval; ResourceCreate].

(** [new HumanMessage({ ...result, name: name })]: a human message with the
    content of [result] and the given name; a human message has no
    [tool_calls]. *)
Definition as_human (result : BaseMessage) (nm : string) : BaseMessage :=
  {| msg_type := HumanMsg; content := content result; name := Some nm;
     tool_calls := None; tool_call_id := None |}.

(** [runAgentNode] of this variant (the method [Agent.runAgentNode] of the
    class-based variant has the same body): no test of the sender; a reply
    without tool calls is recorded as a human message named after the
    agent. *)
Definition runAgentNode (state : AgentState) (agent : New.Runnable)
  (nm : string) : outcome Update :=
  match agent state with
  | Failed e => Threw e
  | Replied result =>
      let result :=
        if negb (has_tool_calls (Some result)) then as_human result nm
        else result in
      Returned
        {| u_messages := Some [result]; u_sender := Some (JStr nm);
           u_patientCreate := None; u_patient := None;
           u_patientUpdate := None; u_resourceApproved := None |}
  end.

(** Modelled from the spec: the merge of a partial update into the state
    (section 4.1), the library's step between two nodes, with the reducers
    of this variant. *)
Definition merge (s : AgentState) (u : Update) : AgentState :=
  {| messages := apply_channel New.messages_reducer (messages s) (u_messages u);
     sender := apply_channel sender_reducer (sender s) (u_sender u);
     patientCreate :=
       apply_channel New.patientCreate_reducer (patientCreate s)
         (u_patientCreate u);
     patient := apply_channel New.patient_reducer (patient s) (u_patient u);
     patientUpdate :=
       apply_channel New.patientUpdate_reducer (patientUpdate s)
         (u_patientUpdate u);
     resourceApproved :=
       apply_channel New.resourceApproved_reducer (resourceApproved s)
         (u_resourceApproved u) |}.

End Second.

(** ** Tool schemas and tools

    The part of zod the tools' schemas use.  Parsing an object reads the
    keys of the shape in the order of the shape and drops every other key. *)

Module Zod.

Inductive zschema : Type :=
| ZString
| ZBoolean
| ZLiteral (s : string)
| ZEnum (options : list string)
| ZArray (elem : zschema)
| ZObject (shape : list (string * zschema)).

Fixpoint zparse (z : zschema) (v : jsval) {struct z} : option jsval :=
  match z, v with
  | ZString, JStr _ => Some v
  | ZBoolean, JBool _ => Some v
  | ZLiteral l, JStr s => if String.eqb s l then Some v else None
  | ZEnum options, JStr s =>
      if existsb (String.eqb s) options then Some v else None
  | ZArray elem, JArr elems =>
      option_map JArr
        ((fix each (l : list jsval) : option (list jsval) :=
            match l with
            | [] => Some []
            | x :: l' =>
                match zparse elem x, each l' with
                | Some x', Some rest => Some (x' :: rest)
                | _, _ => None
                end
            end) elems)
  | ZObject shape, JObj members =>
      option_map JObj
        ((fix fields (sh : list (string * zschema))
            : option (list (string * jsval)) :=
            match sh with
            | [] => Some []
            | (k, zk) :: sh' =>
                match obj_get k members with
                | None => None
                | Some x =>
                    match zparse zk x, fields sh' with
                    | Some x', Some rest => Some ((k, x') :: rest)
                    | _, _ => None
                    end
                end
            end) shape)
  | _, _ => None
  end.

Definition humanNameSchema : zschema :=
  ZObject
    [("use", ZEnum ["usual"; "official"; "temp"; "nickname"; "anonymous";
                    "old"; "maiden"]);
     ("family", ZString);
     ("given", ZArray ZString)].

Definition narrativeSchema : zschema :=
  ZObject
    [("status", ZEnum ["generated"; "extensions"; "additional"; "empty"]);
     ("div", ZString)].

Definition patientCreateShape : list (string * zschema) :=
  [("resourceType", ZLiteral "Patient");
   ("text", narrativeSchema);
   ("name", ZArray humanNameSchema);
   ("gender", ZEnum ["male"; "female"; "other"; "unknown"]);
   ("birthDate", ZString)].

Definition patientCreateSchema : zschema := ZObject patientCreateShape.

(** [patientCreateSchema.extend({ id: z.string() })] *)
Definition patientSchema : zschema :=
  ZObject (patientCreateShape ++ [("id", ZString)]).

Definition approvalSchema : zschema := ZObject [("approved", ZBoolean)].

(** The loops of [zparse] over the elements of an array and over the keys
    of a shape, named. *)
Definition zeach (elem : zschema) : list jsval -> option (list jsval) :=
  fix each (l : list jsval) : option (list jsval) :=
    match l with
    | [] => Some []
    | x :: l' =>
        match zparse elem x, each l' with
        | Some x', Some rest => Some (x' :: rest)
        | _, _ => None
        end
    end.

Definition zfields (members : list (string * jsval))
  : list (string * zschema) -> option (list (string * jsval)) :=
  fix fields (sh : list (string * zschema))
    : option (list (string * jsval)) :=
    match sh with
    | [] => Some []
    | (k, zk) :: sh' =>
        match obj_get k members with
        | None => None
        | Some x =>
            match zparse zk x, fields sh' with
            | Some x', Some rest => Some ((k, x') :: rest)
            | _, _ => None
            end
        end
    end.

(** No key occurs twice: what holds of the keys of an object literal. *)
Fixpoint unique (keys : list string) : bool :=
  match keys with
  | [] => true
  | k :: keys' => negb (existsb (String.eqb k) keys') && unique keys'
  end.

(** Every object shape inside a schema has distinct keys. *)
Fixpoint distinct_keys (z : zschema) : bool :=
  match z with
  | ZArray elem => distinct_keys elem
  | ZObject shape =>
      unique (map fst shape)
      && (fix all (sh : list (string * zschema)) : bool :=
            match sh with
            | [] => true
            | (_, zk) :: sh' => distinct_keys zk && all sh'
            end) shape
  | _ => true
  end.

End Zod.

Record Tool : Type := {
  tool_name : string;
  tool_schema : Zod.zschema;
  tool_handler : jsval -> Update
}.

Module Tools.

Definition patientCreateTool : Tool :=
  {| tool_name := "patient_create";
     tool_schema := Zod.patientCreateSchema;
     tool_handler := fun patientCreate =>
       {| u_messages := None; u_sender := None;
          u_resourceApproved := Some JNull;
          u_patient := Some JNull;
          u_patientCreate := Some patientCreate;
          u_patientUpdate := Some JNull |} |}.

Definition patientUpdateTool : Tool :=
  {| tool_name := "patient_update";
     tool_schema := Zod.patientSchema;
     tool_handler := fun patientUpdate =>
       {| u_messages := None; u_sender := None;
          u_resourceApproved := Some JNull;
          u_patient := None;
          u_patientCreate := Some JNull;
          u_patientUpdate := Some patientUpdate |} |}.

Definition resourceApprovalTool : Tool :=
  {| tool_name := "resource_draft";
     tool_schema := Zod.approvalSchema;
     tool_handler := fun args =>
       {| u_messages := None; u_sender := None;
          u_resourceApproved :=
            Some (match args with
                  | JObj members => default JUndefined (obj_get "approved" members)
                  | _ => JUndefined
                  end);
          u_patient := None; u_patientCreate := None;
          u_patientUpdate := None |} |}.

(** [const tools = [patientCreateTool, patientUpdateTool, resourceApprovalTool]] *)
Definition tools : list Tool :=
  [patientCreateTool; patientUpdateTool; resourceApprovalTool].

End Tools.

(** ** The Tool Dispatcher

    [new ToolNode(tools)] is the library's prebuilt node; the repository
    only constructs it and adds it to the graph as [CallTool]. *)

Module Dispatcher.

Section Dispatch.

(** The registry the node is bound to, and the serialisation of a tool's
    result into the content of its result turn, whose format the
    specification leaves open. *)
Variable registry : list Tool.
Variable summary : Update -> string.

(** Modelled from the spec: looking a tool up by name in the registry
    (section 4.3, step 3). *)
Definition find_tool (nm : string) : option Tool :=
  find (fun t => String.eqb (tool_name t) nm) registry.

(** Modelled from the spec: what the Tool Dispatcher makes of one
    tool-call request (section 4.3, steps 3 to 5); the body of the
    library's [ToolNode] is not under the repository's sources. *)
Inductive tool_result : Type :=
| UnknownTool (nm : string)
| InvalidArguments (nm : string)
| Handled (nm : string) (u : Update).

(** Modelled from the spec: look the tool up by name; if absent the request
    fails as unknown; if found, validate the arguments against the tool's
    schema, and invoke the handler on success (section 4.3, steps 3 to 5). *)
Definition handle (call : ToolCall) : tool_result :=
  match find_tool (call_name call) with
  | None => UnknownTool (call_name call)
  | Some t =>
      match Zod.zparse (tool_schema t) (call_args call) with
      | None => InvalidArguments (call_name call)
      | Some args => Handled (call_name call) (tool_handler t args)
      end
  end.

(** Modelled from the spec: the result turn of a request: originator
    "tool", and as content the failure naming the tool or the serialised
    result (section 4.3, steps 3 to 5). *)
Definition result_turn (call : ToolCall) : BaseMessage :=
  match handle call with
  | UnknownTool nm =>
      ToolMessage ("Error: unknown tool " +:+ nm) nm (call_id call)
  | InvalidArguments nm =>
      ToolMessage ("Error: invalid arguments for tool " +:+ nm) nm
        (call_id call)
  | Handled nm u => ToolMessage (summary u) nm (call_id call)
  end.

(** Modelled from the spec: folding a tool's partial update into the
    accumulated update of the batch with the channels' reducers
    (section 4.3, step 5). *)
Definition fold_channel {A : Type} (reducer : A -> A -> A)
  (acc incoming : option A) : option A :=
  match acc, incoming with
  | _, None => acc
  | None, Some y => Some y
  | Some x, Some y => Some (reducer x y)
  end.

(** Modelled from the spec: the same, for every channel of an update
    (section 4.3, step 5). *)
Definition fold_update (acc u : Update) : Update :=
  {| u_messages :=
       fold_channel New.messages_reducer (u_messages acc) (u_messages u);
     u_sender := fold_channel New.sender_reducer (u_sender acc) (u_sender u);
     u_patientCreate :=
       fold_channel New.patientCreate_reducer (u_patientCreate acc)
         (u_patientCreate u);
     u_patient :=
       fold_channel New.patient_reducer (u_patient acc) (u_patient u);
     u_patientUpdate :=
       fold_channel New.patientUpdate_reducer (u_patientUpdate acc)
         (u_patientUpdate u);
     u_resourceApproved :=
       fold_channel New.resourceApproved_reducer (u_resourceApproved acc)
         (u_resourceApproved u) |}.

(** Modelled from the spec: one request of the batch: a failure only adds
    its result turn, a success folds the handler's update and adds its
    result turn (section 4.3, steps 3 to 5). *)
Definition dispatch_one (acc : Update) (call : ToolCall) : Update :=
  let folded :=
    match handle call with
    | Handled _ u => fold_update acc u
    | _ => acc
    end in
  fold_update folded
    {| u_messages := Some [result_turn call]; u_sender := None;
       u_patientCreate := None; u_patient := None;
       u_patientUpdate := None; u_resourceApproved := None |}.

(** Modelled from the spec: the batch, in the order of the requests
    (section 4.3, step 3 and Output). *)
Definition dispatch (calls : list ToolCall) : Update :=
  fold_left dispatch_one calls no_update.

(** Modelled from the spec: the Tool Dispatcher node (section 4.3): it
    reads the most recent turn, is a no-op when that turn carries no
    tool-call request, and otherwise returns the single partial update of
    the batch. *)
Definition toolNode (state : AgentState) : Update :=
  match last_message (messages state) with
  | None => no_update
  | Some m =>
      match tool_calls m with
      | None | Some [] => no_update
      | Some calls => dispatch calls
      end
  end.

End Dispatch.

End Dispatcher.

(** ** The Executor

    The loop that steps a graph is the library's; the repository only
    configures its step budget ([recursionLimit: 5]). *)

Module Executor.

(** Modelled from the spec: the fatal failures of an invocation (section
    7): a node's failure, and the exhausted step budget. *)
Inductive failure : Type :=
| NodeFatalError (e : js_error)
| StepLimitExceeded.

Section Run.

Variables (State Upd Node : Type).
Variable merge : State -> Upd -> State.
(** A node's body, and the routing out of a node on the merged state;
    [None] is the end marker. *)
Variable body : Node -> State -> outcome Upd.
Variable route : Node -> State -> option Node.

(** Modelled from the spec: the outcome of an invocation (section 6). *)
Inductive RunOutcome : Type :=
| Suspended (s : State) (at_node : Node)
| Completed (s : State)
| RunFailed (f : failure).

(** Modelled from the spec: the Executor (sections 2, 4.5 and 5), which
    is the library's: it runs the active node, merges its output, picks
    the next node from the merged state, and repeats until the end marker;
    a node that raises the interrupt suspends the run at that node with
    the state as of its entry; a node that fails aborts the run; needing
    one more node execution than the step budget allows is the fatal
    step-limit failure.  The result carries the number of node executions
    of the invocation. *)
Fixpoint run (budget : nat) (n : Node) (s : State) : RunOutcome * nat :=
  match budget with
  | O => (RunFailed StepLimitExceeded, O)
  | S budget' =>
      match body n s with
      | Interrupted _ => (Suspended s n, 1%nat)
      | Threw e => (RunFailed (NodeFatalError e), 1%nat)
      | Returned u =>
          let s' := merge s u in
          match route n s' with
          | None => (Completed s', 1%nat)
          | Some n' =>
              let '(o, k) := run budget' n' s' in (o, S k)
          end
      end
  end.

End Run.

Arguments Suspended {State Node} s at_node.
Arguments Completed {State Node} s.
Arguments RunFailed {State Node} f.

End Executor.

(** ** Notions used by the properties *)

(** At most one draft is pending. *)
Definition one_draft (s : AgentState) : Prop :=
  patientCreate s = JNull \/ patientUpdate s = JNull.

(** The system message [draftResourceApproveNode] shows to the approval
    agent. *)
Definition approval_prompt (stringify : jsval -> string)
  (state : AgentState) : BaseMessage :=
  SystemMessage
    ("The AI assistant has initialized the new JSON resource: "
     +:+ stringify (coalesce (patientCreate state) (patientUpdate state))
     +:+ ". Please ask the user if the resource is correct. Do not show any JSON and present the data to the user in a human-readable format.").

(** ** Sample states and inputs *)

Definition sample_history : AgentState :=
  {| messages := [HumanMessage "Create a patient"];
     sender := JStr "user";
     patientCreate := JNull;
     patient := JNull;
     patientUpdate := JNull;
     resourceApproved := JNull |}.

Definition sample_reply : Update :=
  {| u_messages := Some [AIMessage "Which name?" []];
     u_sender := Some (JStr "Patient creater");
     u_patientCreate := None; u_patient := None;
     u_patientUpdate := None; u_resourceApproved := None |}.

Definition sample_draft : jsval :=
  JObj [("resourceType", JStr "Patient");
        ("text", JObj [("status", JStr "generated"); ("div", JStr "<div>Ada</div>")]);
        ("name", JArr [JObj [("use", JStr "official"); ("family", JStr "Lovelace");
                             ("given", JArr [JStr "Ada"])]]);
        ("gender", JStr "female");
        ("birthDate", JStr "1815-12-10")].

Definition creation_path_state : AgentState :=
  {| messages := [HumanMessage "yes, that is right"];
     sender := JStr "Draft resource approver";
     patientCreate := sample_draft;
     patient := JNull;
     patientUpdate := JNull;
     resourceApproved := JBool true |}.

Definition approval_call : ToolCall :=
  {| call_name := "resource_draft";
     call_args := JObj [("approved", JBool true)];
     call_id := "call_1" |}.

(** A state whose most recent message asks for the approval tool. *)
Definition approval_requested : AgentState :=
  {| messages := [HumanMessage "yes"; AIMessage EmptyString [approval_call]];
     sender := JStr Second.ResourceApproval;
     patientCreate := sample_draft;
     patient := JNull;
     patientUpdate := JNull;
     resourceApproved := JNull |}.

Definition asks_for_name : New.Runnable :=
  fun _ => Replied (AIMessage "Which name?" []).

(** The history after the dispatcher has answered a request for a tool it
    does not know. *)
Definition unknown_tool_answered : AgentState :=
  {| messages :=
       [HumanMessage "Create a patient";
        AIMessage EmptyString
          [{| call_name := "patient_delete"; call_args := JObj [];
              call_id := "call_2" |}];
        ToolMessage "Error: Tool patient_delete not found. Please fix your mistakes."
          "patient_delete" "call_2"];
     sender := JStr "Patient creater";
     patientCreate := JNull;
     patient := JNull;
     patientUpdate := JNull;
     resourceApproved := JNull |}.

Definition constant_summary : Update -> string := fun _ => "done".

Definition batch_calls : list ToolCall :=
  [{| call_name := "patient_create"; call_args := sample_draft;
      call_id := "call_1" |};
   {| call_name := "patient_delete"; call_args := JObj [];
      call_id := "call_2" |};
   {| call_name := "resource_draft";
      call_args := JObj [("approved", JBool true)];
      call_id := "call_3" |}].

Definition batch_requested : AgentState :=
  {| messages := [HumanMessage "Create Ada"; AIMessage EmptyString batch_calls];
     sender := JStr "Patient creater";
     patientCreate := JNull;
     patient := JNull;
     patientUpdate := JNull;
     resourceApproved := JNull |}.


Definition always_back (_ : unit) (_ : AgentState) : option unit := Some tt.

(** Arguments for [patient_create] as a model may send them: the keys in
    another order, with a key the schema does not know. *)
Definition noisy_draft : jsval :=
  JObj [("note", JStr "drafted from the conversation");
        ("birthDate", JStr "1815-12-10");
        ("gender", JStr "female");
        ("name", JArr [JObj [("use", JStr "official"); ("family", JStr "Lovelace");
                             ("given", JArr [JStr "Ada"])]]);
        ("text", JObj [("status", JStr "generated"); ("div", JStr "<div>Ada</div>");
                       ("lang", JStr "en")]);
        ("resourceType", JStr "Patient")].

(** Arguments for [patient_update]. *)
Definition noisy_patient : jsval :=
  JObj [("id", JStr "p-1");
        ("birthDate", JStr "1815-12-10");
        ("gender", JStr "female");
        ("name", JArr []);
        ("text", JObj [("status", JStr "empty"); ("div", JStr "<div/>")]);
        ("resourceType", JStr "Patient")].

Definition sample_patient_members : list (string * jsval) :=
  [("resourceType", JStr "Patient");
   ("text", JObj [("status", JStr "empty"); ("div", JStr "<div/>")]);
   ("name", JArr []);
   ("gender", JStr "female");
   ("birthDate", JStr "1815-12-10")].

(** A draft without a birth date. *)
Definition incomplete_draft : list (string * jsval) :=
  [("resourceType", JStr "Patient");
   ("text", JObj [("status", JStr "empty"); ("div", JStr "<div/>")]);
   ("name", JArr []);
   ("gender", JStr "female")].

Definition approval_arguments : jsval :=
  JObj [("reason", JStr "the user said yes"); ("approved", JBool true)].

Definition requests_approval : New.Runnable :=
  fun _ => Replied (AIMessage EmptyString [approval_call]).

Definition braces : jsval -> string := fun _ => "{}".

(** The state after the creation agent has spoken. *)
Definition creater_spoke : AgentState :=
  {| messages := [HumanMessage "Create a patient"; AIMessage "Which name?" []];
     sender := JStr "Patient creater";
     patientCreate := JNull;
     patient := JNull;
     patientUpdate := JNull;
     resourceApproved := JNull |}.

(** What the earlier [runAgentNode] returns for the creation agent's
    question. *)
Definition relabelled_update : Update :=
  {| u_messages :=
       Some [Second.as_human (AIMessage "Which name?" []) Second.PatientCreate];
     u_sender := Some (JStr Second.PatientCreate);
     u_patientCreate := None; u_patient := None;
     u_patientUpdate := None; u_resourceApproved := None |}.


(** [s] between double quotes. *)
Definition quoted (s : string) : string :=
  String Json.dquote (s +:+ String Json.dquote EmptyString).

(** * Properties *)

(** ** State channels *)

Section Channels.

Lemma merge_messages (s : AgentState) (u : Update) :
  messages (New.merge s u) = messages s ++ default [] (u_messages u).
Proof.
  unfold New.merge, apply_channel, New.messages_reducer; simpl.
  destruct (u_messages u); simpl; [reflexivity | now rewrite app_nil_r].
Qed.

Lemma merge_all_messages (us : list Update) :
  forall s : AgentState,
    messages (New.merge_all s us)
    = messages s ++ concat (map (fun u => default [] (u_messages u)) us).
Proof.
  induction us as [| u us IH]; intros s; simpl.
  - now rewrite app_nil_r.
  - unfold New.merge_all in *; simpl.
    rewrite IH, merge_messages, <- app_assoc. reflexivity.
Qed.

End Channels.

(** C3.  The reducer of the [messages] channel returns the old history
    followed by the incoming turns; across any sequence of merge steps the
    history never gets shorter, and a turn recorded at an index stays there
    unchanged. *)
Theorem messages_append_only :
  (forall old incoming : list BaseMessage,
      New.messages_reducer old incoming = old ++ incoming) /\
  (forall (s : AgentState) (us : list Update),
      length (messages s) <= length (messages (New.merge_all s us))) /\
  (forall (s : AgentState) (us : list Update) (i : nat) (m : BaseMessage),
      messages s !! i = Some m ->
      messages (New.merge_all s us) !! i = Some m).
Proof.
  split; [reflexivity |]. split.
  - intros s us. rewrite merge_all_messages, length_app. lia.
  - intros s us i m Hi. rewrite merge_all_messages.
    now apply lookup_app_l_Some.
Qed.

Lemma messages_append_only_witness :
  messages (New.merge_all sample_history [sample_reply; New.approveResourceNode sample_history])
    !! 0%nat = Some (HumanMessage "Create a patient").
Proof.
  apply (proj2 (proj2 messages_append_only) sample_history _ 0%nat).
  reflexivity.
Defined.

(** C4, as stated, fails: the reducer of [sender] does not return an
    incoming [null]. *)
Lemma sender_reducer_ignores_null :
  ~ (forall (c : channel) (old incoming : jsval),
        New.reducer c old incoming = incoming).
Proof.
  intros H. specialize (H Sender (JStr "user") JNull). discriminate H.
Qed.

(** C4, amended.  The reducers of [patientCreate], [patient],
    [patientUpdate] and [resourceApproved] return the incoming value,
    whatever it is, [null] and [undefined] included; the reducer of
    [sender] returns the incoming value unless it is [null] or [undefined],
    and then keeps the old value. *)
Theorem replace_or_clear_reducers :
  forall (c : channel) (old incoming : jsval),
    New.reducer c old incoming
    = match c with
      | Sender => if nullish incoming then old else incoming
      | _ => incoming
      end.
Proof.
  intros [] old incoming; reflexivity.
Qed.

(** The same holds of the earlier variant, whose [sender] falls back to
    ["user"] when both values are missing. *)
Lemma second_sender_reducer (old incoming : jsval) :
  Second.sender_reducer old incoming
  = if nullish incoming then (if nullish old then JStr "user" else old)
    else incoming.
Proof.
  unfold Second.sender_reducer, coalesce.
  destruct incoming, old; reflexivity.
Qed.

(** With the defaults as the seed, [sender] never becomes [null] or
    [undefined], whatever updates are merged. *)
Lemma sender_never_cleared (us : list Update) :
  forall s : AgentState,
    nullish (sender s) = false ->
    nullish (sender (New.merge_all s us)) = false.
Proof.
  induction us as [| u us IH]; intros s Hs; [exact Hs |].
  unfold New.merge_all in *; simpl. apply IH.
  unfold New.merge, apply_channel, New.sender_reducer, coalesce; simpl.
  destruct (u_sender u) as [y |]; [| exact Hs].
  destruct (nullish y) eqn:Hy; [exact Hs | exact Hy].
Qed.

(** ** The approval node *)

(** C8.  [approveResourceNode] sets [patient] to the current value of
    [patientUpdate], whatever [patientCreate] holds, and clears
    [patientCreate], [patientUpdate] and [resourceApproved]; on the creation
    path ([patientUpdate] null, [patientCreate] a draft) the promoted
    [patient] is null and the draft is gone. *)
Theorem approveResourceNode_promotes_patientUpdate :
  forall state : AgentState,
    let update := New.approveResourceNode state in
    let state' := New.merge state update in
    u_patient update = Some (patientUpdate state) /\
    u_patientCreate update = Some JNull /\
    u_patientUpdate update = Some JNull /\
    u_resourceApproved update = Some JNull /\
    patient state' = patientUpdate state /\
    patientCreate state' = JNull /\
    patientUpdate state' = JNull /\
    resourceApproved state' = JNull /\
    (patientUpdate state = JNull -> patientCreate state <> JNull ->
     patient state' = JNull /\ patientCreate state' = JNull).
Proof.
  intros state update state'; subst update state'; simpl.
  repeat (split; [reflexivity |]).
  intros Hnull _. split; [exact Hnull | reflexivity].
Qed.

Lemma approveResourceNode_promotes_patientUpdate_witness :
  patient (New.merge creation_path_state
             (New.approveResourceNode creation_path_state)) = JNull /\
  patientCreate (New.merge creation_path_state
                   (New.approveResourceNode creation_path_state)) = JNull.
Proof.
  apply (approveResourceNode_promotes_patientUpdate creation_path_state).
  - reflexivity.
  - discriminate.
Defined.

(** The promoted value does not depend on [patientCreate]. *)
Lemma approveResourceNode_ignores_patientCreate (s1 s2 : AgentState) :
  patientUpdate s1 = patientUpdate s2 ->
  u_patient (New.approveResourceNode s1) = u_patient (New.approveResourceNode s2).
Proof. intros H; simpl; now rewrite H. Qed.

(** ** Routing *)

Lemma has_tool_calls_carries (state : AgentState) :
  has_tool_calls (last_message (messages state)) = true
  <-> carries_tool_calls state.
Proof.
  unfold carries_tool_calls, has_tool_calls.
  destruct (last_message (messages state)) as [m |].
  - destruct (tool_calls m) as [[| c cs] |] eqn:Hc; simpl.
    + split; [discriminate |].
      intros (m' & c & cs & Hm & Hcalls). inversion Hm; subst m'.
      rewrite Hc in Hcalls. discriminate.
    + split; [| reflexivity]. intros _. exists m, c, cs. now split.
    + split; [discriminate |].
      intros (m' & c & cs & Hm & Hcalls). inversion Hm; subst m'.
      rewrite Hc in Hcalls. discriminate.
  - split; [discriminate |]. intros (m & c & cs & Hm & _). discriminate.
Qed.

Lemma has_tool_calls_not_carries (state : AgentState) :
  has_tool_calls (last_message (messages state)) = false
  <-> ~ carries_tool_calls state.
Proof.
  rewrite <- has_tool_calls_carries.
  destruct (has_tool_calls _); split; intros H; congruence.
Qed.

(** Tool-call precedence of [callToolElse]: a pending tool call wins over
    the domain routing function, which is used otherwise. *)
Lemma callToolElse_precedence (elseStmt : AgentState -> string)
  (state : AgentState) :
  (carries_tool_calls state -> New.callToolElse elseStmt state = "CallTool") /\
  (~ carries_tool_calls state ->
   New.callToolElse elseStmt state = elseStmt state).
Proof.
  unfold New.callToolElse. split; intros H.
  - apply has_tool_calls_carries in H. now rewrite H.
  - apply has_tool_calls_not_carries in H. now rewrite H.
Qed.

(** Every agent node of [utilities/new.ts] routes through [callToolElse]. *)
Lemma new_agent_nodes_route (n : string) (state : AgentState) :
  In n New.agent_nodes ->
  next_nodes New.workflow n state
  = Some [New.callToolElse (fun _ => n) state].
Proof.
  intros Hn. simpl in Hn.
  destruct Hn as [<- | [<- | [<- | []]]]; reflexivity.
Qed.

Lemma new_agent_nodes_precedence (n : string) (state : AgentState) :
  In n New.agent_nodes ->
  (carries_tool_calls state ->
   next_nodes New.workflow n state = Some ["CallTool"]) /\
  (~ carries_tool_calls state -> next_nodes New.workflow n state = Some [n]).
Proof.
  intros Hn. rewrite (new_agent_nodes_route n state Hn).
  destruct (callToolElse_precedence (fun _ => n) state) as [H1 H2].
  split; intros H; [rewrite (H1 H) | rewrite (H2 H)]; reflexivity.
Qed.






(** The fourth agent node of the earlier variant, [resource-approval], is
    routed by a function of its own and not by [router]: evaluated on a
    state whose most recent message carries a tool-call request, that
    function selects the sender. *)
Lemma resource_approval_edge_skips_dispatcher :
  In Second.ResourceApproval Second.agent_nodes /\
  carries_tool_calls approval_requested /\
  next_nodes Second.workflow Second.ResourceApproval approval_requested
  = Some ["resource-approval"] /\
  next_nodes Second.workflow Second.ResourceApproval approval_requested
  <> Some ["call_tool"].
Proof.
  split; [simpl; tauto |]. split.
  - apply has_tool_calls_carries. reflexivity.
  - split; [reflexivity | discriminate].
Qed.

(** C6.  The only way out of [CallTool] is the unconditional edge to
    [ToolMessageUpdateState], on every state; that node then reads the tool
    result turn just appended to the history. *)
Theorem CallTool_routes_to_ToolMessageUpdateState :
  (forall state : AgentState,
      next_nodes New.workflow "CallTool" state
      = Some ["ToolMessageUpdateState"]) /\
  edges_from New.workflow "CallTool" = ["ToolMessageUpdateState"] /\
  branches_from New.workflow "CallTool" = [] /\
  (forall (state : AgentState) (turn : BaseMessage),
      New.toolMessageUpdateStateNode (New.with_message state turn)
      = match Json.parse (content turn) with
        | Some v => Returned v
        | None => Threw SyntaxError
        end).
Proof.
  repeat split.
  intros state turn. unfold New.toolMessageUpdateStateNode, last_message.
  simpl. rewrite last_snoc. reflexivity.
Qed.

(** ** Agent nodes *)

Lemma strict_eq_str_spec (v : jsval) (s : string) :
  strict_eq_str v s = true <-> v = JStr s.
Proof.
  destruct v; simpl; try (split; [discriminate | intros H; discriminate H]).
  rewrite String.eqb_eq. split; [intros -> | intros H; inversion H]; reflexivity.
Qed.

Lemma strict_eq_str_false (v : jsval) (s : string) :
  strict_eq_str v s = false <-> v <> JStr s.
Proof.
  rewrite <- strict_eq_str_spec.
  destruct (strict_eq_str v s); split; intros H; congruence.
Qed.

Lemma runAgentNode_interrupted (state : AgentState) (agent : New.Runnable)
  (nm reason : string) :
  New.runAgentNode state agent nm = Interrupted reason ->
  sender state = JStr nm.
Proof.
  unfold New.runAgentNode. intros H.
  destruct (strict_eq_str (sender state) nm) eqn:E.
  - now apply strict_eq_str_spec.
  - destruct (agent state); discriminate H.
Qed.

Lemma runAgentNode_self (state : AgentState) (agent : New.Runnable)
  (nm : string) :
  sender state = JStr nm ->
  New.runAgentNode state agent nm = Interrupted "Wait for user input".
Proof.
  intros H. apply strict_eq_str_spec in H.
  unfold New.runAgentNode. now rewrite H.
Qed.

Lemma runAgentNode_other (state : AgentState) (agent : New.Runnable)
  (nm : string) :
  sender state <> JStr nm ->
  New.runAgentNode state agent nm
  = match agent state with
    | Replied result => Returned (New.spread_with state [result] nm)
    | Failed e => Threw e
    end.
Proof.
  intros H. apply strict_eq_str_false in H.
  unfold New.runAgentNode. rewrite H. destruct (agent state); reflexivity.
Qed.

(** Once an agent node has spoken, the merged state names it as the sender. *)
Lemma runAgentNode_sets_sender (state : AgentState) (agent : New.Runnable)
  (nm : string) (u : Update) :
  New.runAgentNode state agent nm = Returned u ->
  sender (New.merge state u) = JStr nm.
Proof.
  unfold New.runAgentNode.
  destruct (strict_eq_str (sender state) nm); [discriminate |].
  destruct (agent state); [| discriminate].
  intros H; inversion H; subst u. reflexivity.
Qed.

Lemma runAgentNode_interrupt_iff (state : AgentState) (agent : New.Runnable)
  (nm : string) :
  (exists reason, New.runAgentNode state agent nm = Interrupted reason)
  <-> sender state = JStr nm.
Proof.
  split.
  - intros [reason H]. exact (runAgentNode_interrupted _ _ _ _ H).
  - intros H. eexists. exact (runAgentNode_self _ agent _ H).
Qed.

(** C2.  [runAgentNode] raises the interrupt exactly when the sender of the
    state is the node's own agent name; otherwise it invokes the agent and
    returns the update carrying the agent's message and its name (or fails
    with the backend's failure).  Hence the agent node that has just spoken
    cannot run again on the state it produced: it suspends. *)
Theorem runAgentNode_suspends_iff_self_talk :
  forall (state : AgentState) (agent : New.Runnable) (nm : string),
    ((exists reason, New.runAgentNode state agent nm = Interrupted reason)
     <-> sender state = JStr nm) /\
    (sender state = JStr nm ->
     New.runAgentNode state agent nm = Interrupted "Wait for user input") /\
    (sender state <> JStr nm ->
     New.runAgentNode state agent nm
     = match agent state with
       | Replied result => Returned (New.spread_with state [result] nm)
       | Failed e => Threw e
       end) /\
    (forall (u : Update) (agent' : New.Runnable),
        New.runAgentNode state agent nm = Returned u ->
        New.runAgentNode (New.merge state u) agent' nm
        = Interrupted "Wait for user input").
Proof.
  intros state agent nm.
  split; [apply runAgentNode_interrupt_iff |].
  split; [apply runAgentNode_self |].
  split; [apply runAgentNode_other |].
  intros u agent' H. apply runAgentNode_self.
  exact (runAgentNode_sets_sender _ _ _ _ H).
Qed.

Lemma runAgentNode_suspends_iff_self_talk_witness :
  New.runAgentNode sample_history asks_for_name "Patient creater"
  = Returned (New.spread_with sample_history [AIMessage "Which name?" []]
                "Patient creater") /\
  New.runAgentNode
    (New.merge sample_history
       (New.spread_with sample_history [AIMessage "Which name?" []]
          "Patient creater"))
    asks_for_name "Patient creater"
  = Interrupted "Wait for user input".
Proof.
  destruct (runAgentNode_suspends_iff_self_talk sample_history asks_for_name
              "Patient creater") as (_ & _ & Hother & Hagain).
  split.
  - apply Hother. discriminate.
  - apply Hagain. reflexivity.
Defined.

(** The three agent nodes of the graph suspend exactly on their own name. *)
Lemma agent_nodes_suspend_iff_self_talk
  (a1 a2 a3 : New.Runnable) (stringify : jsval -> string)
  (state : AgentState) :
  ((exists r, New.patientCreateNode a1 state = Interrupted r)
   <-> sender state = JStr "Patient creater") /\
  ((exists r, New.patientUpdateNode a2 state = Interrupted r)
   <-> sender state = JStr "Patient updater") /\
  ((exists r, New.draftResourceApproveNode a3 stringify state = Interrupted r)
   <-> sender state = JStr "Draft resource approver").
Proof.
  split; [apply runAgentNode_interrupt_iff |].
  split; [apply runAgentNode_interrupt_iff |].
  unfold New.draftResourceApproveNode.
  set (st := New.with_message state _).
  change (sender state) with (sender st).
  destruct (runAgentNode_interrupt_iff st a3 "Draft resource approver")
    as [Hl Hr].
  split.
  - intros [r H]. apply Hl.
    destruct (New.runAgentNode st a3 "Draft resource approver") eqn:E;
      try discriminate H. eexists; reflexivity.
  - intros H. destruct (Hr H) as [r E]. rewrite E. eexists; reflexivity.
Qed.

(** In the graph: when the creation agent has answered without asking for a
    tool, the routing sends the run back to [PatientCreate], and the node
    suspends there instead of answering itself. *)
Lemma patientCreate_self_loop_suspends (agent : New.Runnable)
  (state : AgentState) (u : Update) :
  New.patientCreateNode agent state = Returned u ->
  ~ carries_tool_calls (New.merge state u) ->
  next_nodes New.workflow "PatientCreate" (New.merge state u)
  = Some ["PatientCreate"] /\
  New.patientCreateNode agent (New.merge state u)
  = Interrupted "Wait for user input".
Proof.
  intros Hrun Hquiet. split.
  - apply new_agent_nodes_precedence; [simpl; tauto | exact Hquiet].
  - apply runAgentNode_self.
    exact (runAgentNode_sets_sender _ _ _ _ Hrun).
Qed.

(** ** [JSON.parse] on sample texts *)

Example parse_approval_update :
  Json.parse ("{" +:+ quoted "resourceApproved" +:+ ":true}")
  = Some (JObj [("resourceApproved", JBool true)]).
Proof. reflexivity. Qed.

Example parse_nested :
  Json.parse ("{ " +:+ quoted "patient" +:+ ": null, " +:+ quoted "name"
              +:+ ": [{" +:+ quoted "given" +:+ ": [" +:+ quoted "Ada"
              +:+ "]}], " +:+ quoted "n" +:+ ": -1.5e+3 }")
  = Some (JObj [("patient", JNull);
                ("name", JArr [JObj [("given", JArr [JStr "Ada"])]]);
                ("n", JNum "-1.5e+3")]).
Proof. reflexivity. Qed.

Example parse_duplicate_key :
  Json.parse ("{" +:+ quoted "a" +:+ ":1," +:+ quoted "b" +:+ ":2,"
              +:+ quoted "a" +:+ ":3}")
  = Some (JObj [("a", JNum "3"); ("b", JNum "2")]).
Proof. reflexivity. Qed.

Example parse_rejects_malformed :
  Json.parse EmptyString = None /\
  Json.parse "[1,]" = None /\
  Json.parse "[1 2]" = None /\
  Json.parse "01" = None /\
  Json.parse "1." = None /\
  Json.parse "-" = None /\
  Json.parse "nul" = None /\
  Json.parse "null null" = None /\
  Json.parse "{1:2}" = None /\
  Json.parse "[[]" = None /\
  Json.parse (String Json.dquote "open") = None /\
  Json.parse (quoted "\x") = None.
Proof. repeat split. Qed.

(** ** Applying tool results *)

(** A text whose first character starts no JSON value and is no white space
    is not JSON. *)
Lemma parse_rejects_first_char (c : ascii) (rest : string) :
  Json.lex_idle c = None -> Json.parse (String c rest) = None.
Proof.
  intros H. unfold Json.parse, Json.tokenize. simpl. now rewrite H.
Qed.

Lemma parse_rejects_Error (text : string) :
  Json.parse ("Error" +:+ text) = None.
Proof. apply parse_rejects_first_char. reflexivity. Qed.

(** C9.  [toolMessageUpdateStateNode] returns what [JSON.parse] makes of the
    content of the last message: it returns a value exactly when that
    content is JSON denoting the value, and throws when the content is not
    JSON; a plain-text error turn at the end of the history makes it
    throw. *)
Theorem toolMessageUpdateStateNode_parses_last_content :
  forall state : AgentState,
    (forall v : jsval,
        New.toolMessageUpdateStateNode state = Returned v <->
        exists m, last_message (messages state) = Some m /\
                  Json.parse (content m) = Some v) /\
    (forall m : BaseMessage,
        last_message (messages state) = Some m ->
        Json.parse (content m) = None ->
        New.toolMessageUpdateStateNode state = Threw SyntaxError) /\
    (forall text nm id : string,
        New.toolMessageUpdateStateNode
          (New.with_message state (ToolMessage ("Error" +:+ text) nm id))
        = Threw SyntaxError).
Proof.
  intros state. unfold New.toolMessageUpdateStateNode.
  split; [| split].
  - intros v. destruct (last_message (messages state)) as [m |].
    + destruct (Json.parse (content m)) as [w |] eqn:E.
      * split.
        -- intros H; inversion H; subst w. exists m. now split.
        -- intros (m' & Hm & Hv). inversion Hm; subst m'.
           rewrite E in Hv. inversion Hv. reflexivity.
      * split; [discriminate |].
        intros (m' & Hm & Hv). inversion Hm; subst m'.
        rewrite E in Hv. discriminate.
    + split; [discriminate |]. intros (m' & Hm & _). discriminate.
  - intros m Hm Hp. rewrite Hm, Hp. reflexivity.
  - intros text nm id. unfold last_message. simpl. rewrite last_snoc.
    change (content (ToolMessage ("Error" +:+ text) nm id))
      with ("Error" +:+ text).
    now rewrite parse_rejects_Error.
Qed.

Lemma toolMessageUpdateStateNode_parses_last_content_witness :
  New.toolMessageUpdateStateNode unknown_tool_answered = Threw SyntaxError.
Proof.
  apply (proj1 (proj2 (toolMessageUpdateStateNode_parses_last_content
                         unknown_tool_answered))
           (ToolMessage "Error: Tool patient_delete not found. Please fix your mistakes."
              "patient_delete" "call_2")).
  - reflexivity.
  - reflexivity.
Defined.

(** ** The Tool Dispatcher *)

Section DispatcherProperties.

Variable registry : list Tool.
Variable summary : Update -> string.

(** The tools of the registry return no turns of their own. *)
Hypothesis handlers_write_no_turns :
  forall (t : Tool) (args : jsval),
    In t registry -> u_messages (tool_handler t args) = None.

Local Abbreviation result_turn := (Dispatcher.result_turn registry summary).
Local Abbreviation dispatch_one := (Dispatcher.dispatch_one registry summary).
Local Abbreviation dispatch := (Dispatcher.dispatch registry summary).

Lemma apply_fold_channel {A : Type} (r : A -> A -> A)
  (old : A) (a b : option A) :
  (forall x y z, r x (r y z) = r (r x y) z) ->
  apply_channel r old (Dispatcher.fold_channel r a b)
  = apply_channel r (apply_channel r old a) b.
Proof.
  intros Hassoc. destruct a, b; simpl; auto.
Qed.

Lemma sender_reducer_assoc (x y z : jsval) :
  New.sender_reducer x (New.sender_reducer y z)
  = New.sender_reducer (New.sender_reducer x y) z.
Proof.
  unfold New.sender_reducer, coalesce.
  destruct (nullish z) eqn:Hz; [reflexivity | now rewrite Hz].
Qed.

Lemma merge_fold_update (s : AgentState) (acc u : Update) :
  New.merge s (Dispatcher.fold_update acc u) = New.merge (New.merge s acc) u.
Proof.
  unfold New.merge, Dispatcher.fold_update; simpl.
  f_equal; apply apply_fold_channel; try reflexivity.
  - intros x y z. unfold New.messages_reducer. apply app_assoc.
  - apply sender_reducer_assoc.
Qed.

Lemma merge_no_update (s : AgentState) : New.merge s no_update = s.
Proof. destruct s; reflexivity. Qed.

Lemma merge_dispatch_one (s : AgentState) (acc : Update) (call : ToolCall) :
  New.merge s (dispatch_one acc call)
  = New.merge (New.merge s acc) (dispatch_one no_update call).
Proof.
  unfold Dispatcher.dispatch_one.
  rewrite !merge_fold_update.
  destruct (Dispatcher.handle registry call);
    rewrite ?merge_fold_update, ?merge_no_update; reflexivity.
Qed.

Lemma merge_dispatch_from (calls : list ToolCall) :
  forall (s : AgentState) (acc : Update),
    New.merge s (fold_left dispatch_one calls acc)
    = fold_left (fun s' c => New.merge s' (dispatch_one no_update c)) calls
        (New.merge s acc).
Proof.
  induction calls as [| c calls IH]; intros s acc; simpl; [reflexivity |].
  rewrite IH, merge_dispatch_one. reflexivity.
Qed.

Lemma find_tool_registered (nm : string) (t : Tool) :
  Dispatcher.find_tool registry nm = Some t -> In t registry.
Proof.
  unfold Dispatcher.find_tool. intros H.
  apply find_some in H. exact (proj1 H).
Qed.

Lemma handled_writes_no_turns (call : ToolCall) (nm : string) (u : Update) :
  Dispatcher.handle registry call = Dispatcher.Handled nm u ->
  u_messages u = None.
Proof.
  unfold Dispatcher.handle.
  destruct (Dispatcher.find_tool registry (call_name call)) as [t |] eqn:Ht;
    [| discriminate].
  destruct (Zod.zparse (tool_schema t) (call_args call)); [| discriminate].
  intros H; inversion H; subst.
  apply handlers_write_no_turns. exact (find_tool_registered _ _ Ht).
Qed.

Lemma dispatch_one_turn (s : AgentState) (call : ToolCall) :
  messages (New.merge s (dispatch_one no_update call))
  = messages s ++ [result_turn call].
Proof.
  rewrite merge_messages. f_equal.
  unfold Dispatcher.dispatch_one.
  destruct (Dispatcher.handle registry call) as [nm | nm | nm u] eqn:Hh;
    try reflexivity.
  simpl. rewrite (handled_writes_no_turns _ _ _ Hh). reflexivity.
Qed.

Lemma dispatch_turns (calls : list ToolCall) :
  forall s : AgentState,
    messages
      (fold_left (fun s' c => New.merge s' (dispatch_one no_update c)) calls s)
    = messages s ++ map result_turn calls.
Proof.
  induction calls as [| c calls IH]; intros s; simpl.
  - now rewrite app_nil_r.
  - rewrite IH, dispatch_one_turn, <- app_assoc. reflexivity.
Qed.

Lemma toolNode_dispatches (state : AgentState) (m : BaseMessage)
  (calls : list ToolCall) :
  last_message (messages state) = Some m ->
  tool_calls m = Some calls ->
  Dispatcher.toolNode registry summary state = dispatch calls.
Proof.
  intros Hm Hc. unfold Dispatcher.toolNode. rewrite Hm, Hc.
  destruct calls; reflexivity.
Qed.

Lemma map_lookup_Some {A B : Type} (f : A -> B) (l : list A) :
  forall (i : nat) (x : A), l !! i = Some x -> map f l !! i = Some (f x).
Proof.
  induction l as [| a l IH]; intros [| i] x H; simpl in *;
    try discriminate.
  - inversion H; reflexivity.
  - now apply IH.
Qed.

Lemma unknown_tool_turn (call : ToolCall) :
  Dispatcher.find_tool registry (call_name call) = None ->
  result_turn call
  = ToolMessage ("Error: unknown tool " +:+ call_name call)
      (call_name call) (call_id call).
Proof.
  intros H. unfold Dispatcher.result_turn, Dispatcher.handle.
  now rewrite H.
Qed.

Lemma merge_result_turn (s : AgentState) (turn : BaseMessage) :
  New.merge s
    {| u_messages := Some [turn]; u_sender := None; u_patientCreate := None;
       u_patient := None; u_patientUpdate := None;
       u_resourceApproved := None |}
  = New.with_message s turn.
Proof. reflexivity. Qed.

(** One request of the batch, seen on the state: the update of the handler,
    if the request was handled, is merged, and the result turn is
    appended. *)
Lemma merge_dispatch_one_result (s : AgentState) (call : ToolCall) :
  New.merge s (dispatch_one no_update call)
  = New.with_message
      match Dispatcher.handle registry call with
      | Dispatcher.Handled _ u => New.merge s u
      | _ => s
      end
      (result_turn call).
Proof.
  unfold Dispatcher.dispatch_one.
  rewrite merge_fold_update, merge_result_turn. f_equal.
  destruct (Dispatcher.handle registry call);
    rewrite ?merge_fold_update, ?merge_no_update; reflexivity.
Qed.

Lemma fold_left_pointwise {A B : Type} (f g : A -> B -> A) (l : list B) :
  (forall a b, f a b = g a b) ->
  forall a, fold_left f l a = fold_left g l a.
Proof.
  intros Hfg. induction l as [| b l IH]; intros a; simpl; [reflexivity |].
  rewrite Hfg. apply IH.
Qed.

(** C5.  On a turn carrying the requests [calls], the Tool Dispatcher adds
    one result turn per request, in the order of the requests; a request
    for an unregistered tool gets a failure turn naming the tool and the
    requests after it are still processed; and the state after the step,
    reached in one merge, is the state reached by going through all the
    requests in their order, merging the update of the handler of each
    request that was handled and appending the result or failure turn of
    each request. *)
Theorem toolNode_commits_whole_batch :
  forall (state : AgentState) (m : BaseMessage) (calls : list ToolCall),
    last_message (messages state) = Some m ->
    tool_calls m = Some calls ->
    let state' :=
      New.merge state (Dispatcher.toolNode registry summary state) in
    messages state' = messages state ++ map result_turn calls /\
    length (messages state') = (length (messages state) + length calls)%nat /\
    (forall (i : nat) (call : ToolCall),
        calls !! i = Some call ->
        Dispatcher.find_tool registry (call_name call) = None ->
        messages state' !! (length (messages state) + i)%nat
        = Some (ToolMessage ("Error: unknown tool " +:+ call_name call)
                  (call_name call) (call_id call))) /\
    state'
    = fold_left
        (fun (s : AgentState) (call : ToolCall) =>
           New.with_message
             match Dispatcher.handle registry call with
             | Dispatcher.Handled _ u => New.merge s u
             | _ => s
             end
             (result_turn call))
        calls state.
Proof.
  intros state m calls Hm Hc state'. subst state'.
  rewrite (toolNode_dispatches state m calls Hm Hc).
  assert (Hall :
    New.merge state (dispatch calls)
    = fold_left (fun s c => New.merge s (dispatch_one no_update c)) calls
        state).
  { unfold Dispatcher.dispatch.
    rewrite merge_dispatch_from, merge_no_update. reflexivity. }
  assert (Hturns :
    messages (New.merge state (dispatch calls))
    = messages state ++ map result_turn calls).
  { rewrite Hall. apply dispatch_turns. }
  split; [exact Hturns |]. split.
  - rewrite Hturns, length_app, length_map. reflexivity.
  - split;
      [| rewrite Hall; apply fold_left_pointwise;
         intros s c; apply merge_dispatch_one_result].
    intros i call Hi Hunknown. rewrite Hturns.
    rewrite lookup_app_r by lia.
    replace (length (messages state) + i - length (messages state))%nat
      with i by lia.
    rewrite <- (unknown_tool_turn call Hunknown).
    now apply map_lookup_Some.
Qed.

End DispatcherProperties.

Lemma tools_write_no_turns (t : Tool) (args : jsval) :
  In t Tools.tools -> u_messages (tool_handler t args) = None.
Proof.
  simpl. intros [<- | [<- | [<- | []]]]; reflexivity.
Qed.

Lemma toolNode_commits_whole_batch_witness :
  let state' :=
    New.merge batch_requested
      (Dispatcher.toolNode Tools.tools constant_summary batch_requested) in
  messages state'
  = messages batch_requested
    ++ [ToolMessage "done" "patient_create" "call_1";
        ToolMessage "Error: unknown tool patient_delete" "patient_delete" "call_2";
        ToolMessage "done" "resource_draft" "call_3"] /\
  patientCreate state' = sample_draft /\
  resourceApproved state' = JBool true.
Proof.
  pose proof (toolNode_commits_whole_batch Tools.tools constant_summary
                tools_write_no_turns batch_requested
                (AIMessage EmptyString batch_calls) batch_calls
                eq_refl eq_refl) as (Hturns & _ & _ & Hall).
  cbv zeta. split; [exact Hturns |].
  rewrite Hall. split; reflexivity.
Defined.

(** ** The step budget *)

Section ExecutorProperties.

Variables (State Upd Node : Type).
Variable merge : State -> Upd -> State.
Variable body : Node -> State -> outcome Upd.
Variable route : Node -> State -> option Node.

Local Abbreviation run := (Executor.run State Upd Node merge body route).






End ExecutorProperties.


(** An agent node that is always routed back to itself speaks once and then
    suspends, at its second execution, whatever the budget from two on. *)
Lemma agent_self_loop_suspends (agent : New.Runnable) (nm : string)
  (reply : BaseMessage) (s : AgentState) (budget : nat) :
  sender s <> JStr nm ->
  agent s = Replied reply ->
  Executor.run AgentState Update unit New.merge
    (fun _ st => New.runAgentNode st agent nm) always_back (S (S budget)) tt s
  = (Executor.Suspended (New.merge s (New.spread_with s [reply] nm)) tt,
     2%nat).
Proof.
  intros Hs Hr. cbn [Executor.run].
  rewrite (runAgentNode_other s agent nm Hs), Hr.
  cbn [always_back].
  rewrite (runAgentNode_self _ agent nm); reflexivity.
Qed.


(** * Further properties of the code *)

(** ** Tool schemas *)

Section ZodProperties.

Import Zod.

Lemma zparse_array (elem : zschema) (elems : list jsval) :
  zparse (ZArray elem) (JArr elems) = option_map JArr (zeach elem elems).
Proof. reflexivity. Qed.

Lemma zparse_object (shape : list (string * zschema))
  (members : list (string * jsval)) :
  zparse (ZObject shape) (JObj members)
  = option_map JObj (zfields members shape).
Proof. reflexivity. Qed.

Lemma zschema_induction (P : zschema -> Prop) :
  P ZString -> P ZBoolean ->
  (forall s, P (ZLiteral s)) ->
  (forall options, P (ZEnum options)) ->
  (forall elem, P elem -> P (ZArray elem)) ->
  (forall shape, Forall (fun kz => P (snd kz)) shape -> P (ZObject shape)) ->
  forall z, P z.
Proof.
  intros Hs Hb Hl He Ha Ho.
  fix IH 1. intros [| | s | options | elem | shape].
  - exact Hs.
  - exact Hb.
  - apply Hl.
  - apply He.
  - apply Ha, IH.
  - apply Ho. induction shape as [| [k zk] shape IHshape].
    + constructor.
    + constructor; [apply IH | exact IHshape].
Qed.

Lemma zfields_cons (members : list (string * jsval)) (k : string)
  (zk : zschema) (sh : list (string * zschema)) :
  zfields members ((k, zk) :: sh)
  = match obj_get k members with
    | None => None
    | Some x =>
        match zparse zk x, zfields members sh with
        | Some x', Some rest => Some ((k, x') :: rest)
        | _, _ => None
        end
    end.
Proof. reflexivity. Qed.

(** The keys of a parsed object are the keys of the shape, in its order. *)
Lemma zfields_keys (members : list (string * jsval))
  (shape : list (string * zschema)) :
  forall out, zfields members shape = Some out ->
              map fst out = map fst shape.
Proof.
  induction shape as [| [k zk] sh IH]; intros out H.
  - inversion H; reflexivity.
  - rewrite zfields_cons in H.
    destruct (obj_get k members) as [x |]; [| discriminate].
    destruct (zparse zk x) as [x' |]; [| discriminate].
    destruct (zfields members sh) as [rest |]; [| discriminate].
    inversion H; subst out. simpl. f_equal. now apply IH.
Qed.

Lemma zfields_app (members : list (string * jsval))
  (sh1 sh2 : list (string * zschema)) :
  zfields members (sh1 ++ sh2)
  = match zfields members sh1, zfields members sh2 with
    | Some o1, Some o2 => Some (o1 ++ o2)
    | _, _ => None
    end.
Proof.
  induction sh1 as [| [k zk] sh1 IH].
  - simpl. destruct (zfields members sh2); reflexivity.
  - change (((k, zk) :: sh1) ++ sh2) with ((k, zk) :: (sh1 ++ sh2)).
    rewrite !zfields_cons, IH.
    destruct (obj_get k members) as [x |]; [| reflexivity].
    destruct (zparse zk x) as [x' |].
    + destruct (zfields members sh1), (zfields members sh2); reflexivity.
    + destruct (zfields members sh1), (zfields members sh2); reflexivity.
Qed.

Lemma obj_get_fresh (k : string) (x : jsval)
  (pre rest : list (string * jsval)) :
  existsb (String.eqb k) (map fst pre) = false ->
  obj_get k (pre ++ (k, x) :: rest) = Some x.
Proof.
  induction pre as [| [k' v'] pre IH]; simpl; intros H.
  - now rewrite String.eqb_refl.
  - apply orb_false_iff in H as [Hk Hpre].
    rewrite String.eqb_sym, Hk. now apply IH.
Qed.

Lemma existsb_eqb_false (k : string) (keys : list string) :
  existsb (String.eqb k) keys = false ->
  forall k', In k' keys -> String.eqb k' k = false.
Proof.
  induction keys as [| k0 keys IH]; simpl; intros H k' Hin; [contradiction |].
  apply orb_false_iff in H as [Hk Hrest].
  destruct Hin as [<- | Hin]; [now rewrite String.eqb_sym | now apply IH].
Qed.

Lemma zfields_reparse (shape : list (string * zschema)) :
  Forall (fun kz => forall v v', zparse (snd kz) v = Some v' ->
                                 zparse (snd kz) v' = Some v') shape ->
  unique (map fst shape) = true ->
  forall (members pre out : list (string * jsval)),
    (forall k, In k (map fst shape) ->
               existsb (String.eqb k) (map fst pre) = false) ->
    zfields members shape = Some out ->
    zfields (pre ++ out) shape = Some out.
Proof.
  induction shape as [| [k zk] sh IH]; intros Hall Huniq members pre out Hpre H.
  - inversion H; reflexivity.
  - inversion Hall as [| ? ? Hzk Hrest]; subst.
    simpl in Huniq. apply andb_true_iff in Huniq as [Hk Huniq].
    apply negb_true_iff in Hk.
    rewrite zfields_cons in H.
    destruct (obj_get k members) as [x |]; [| discriminate].
    destruct (zparse zk x) as [x' |] eqn:Hx; [| discriminate].
    destruct (zfields members sh) as [rest |] eqn:Hsh; [| discriminate].
    inversion H; subst out. rewrite zfields_cons.
    rewrite obj_get_fresh by (apply Hpre; simpl; auto).
    simpl in Hzk. rewrite (Hzk _ _ Hx).
    replace (pre ++ (k, x') :: rest) with ((pre ++ [(k, x')]) ++ rest)
      by (rewrite <- app_assoc; reflexivity).
    rewrite (IH Hrest Huniq members (pre ++ [(k, x')]) rest); [reflexivity | | exact Hsh].
    intros k' Hk'. rewrite map_app, existsb_app. simpl.
    rewrite (Hpre k') by (simpl; auto).
    rewrite (existsb_eqb_false _ _ Hk k' Hk'). reflexivity.
Qed.

Lemma zeach_reparse (elem : zschema) :
  (forall v v', zparse elem v = Some v' -> zparse elem v' = Some v') ->
  forall elems out, zeach elem elems = Some out -> zeach elem out = Some out.
Proof.
  intros Helem. induction elems as [| x elems IH]; intros out H; simpl in H.
  - inversion H; reflexivity.
  - destruct (zparse elem x) as [x' |] eqn:Hx; [| discriminate].
    destruct (zeach elem elems) as [rest |] eqn:Hrest; [| discriminate].
    inversion H; subst out. simpl.
    rewrite (Helem _ _ Hx), (IH rest eq_refl). reflexivity.
Qed.

Lemma distinct_keys_object (shape : list (string * zschema)) :
  distinct_keys (ZObject shape) = true ->
  unique (map fst shape) = true /\
  Forall (fun kz => distinct_keys (snd kz) = true) shape.
Proof.
  simpl. intros H. apply andb_true_iff in H as [Hu Hall].
  split; [exact Hu |]. clear Hu.
  induction shape as [| [k zk] sh IH]; constructor.
  - apply andb_true_iff in Hall as [Hzk _]. exact Hzk.
  - apply IH. apply andb_true_iff in Hall as [_ Hsh]. exact Hsh.
Qed.

(** What a schema returns, it accepts again and returns unchanged. *)
Lemma zparse_reparse :
  forall z : zschema,
    distinct_keys z = true ->
    forall v v' : jsval,
      zparse z v = Some v' -> zparse z v' = Some v'.
Proof.
  induction z as [| | l | options | elem IH | shape IH] using zschema_induction;
    intros Hwf v v' H.
  - destruct v; simpl in H; try discriminate. now inversion H; subst.
  - destruct v; simpl in H; try discriminate. now inversion H; subst.
  - destruct v; simpl in H; try discriminate.
    destruct (String.eqb s l) eqn:E; [| discriminate].
    inversion H; subst. simpl. now rewrite E.
  - destruct v; simpl in H; try discriminate.
    destruct (existsb (String.eqb s) options) eqn:E; [| discriminate].
    inversion H; subst. simpl. now rewrite E.
  - destruct v; try discriminate H.
    rewrite zparse_array in H.
    destruct (zeach elem elems) as [out |] eqn:E; [| discriminate].
    inversion H; subst. rewrite zparse_array.
    rewrite (zeach_reparse elem (IH Hwf) elems out E). reflexivity.
  - destruct v; try discriminate H.
    rewrite zparse_object in H.
    destruct (zfields members shape) as [out |] eqn:E; [| discriminate].
    inversion H; subst. rewrite zparse_object.
    destruct (distinct_keys_object shape Hwf) as [Huniq Hall].
    assert (Hidem : Forall (fun kz => forall v v',
                zparse (snd kz) v = Some v' -> zparse (snd kz) v' = Some v')
              shape).
    { rewrite Forall_forall in *. intros kz Hin. apply IH; [exact Hin |].
      now apply Hall. }
    pose proof (zfields_reparse shape Hidem Huniq members [] out) as Hre.
    simpl in Hre. rewrite Hre; [reflexivity | reflexivity | exact E].
Qed.

Lemma tool_schemas_distinct_keys (t : Tool) :
  In t Tools.tools -> distinct_keys (tool_schema t) = true.
Proof.
  simpl. intros [<- | [<- | [<- | []]]]; reflexivity.
Qed.

(** X1.  The arguments a tool of the registry has validated are a fixed
    point of its validation: validating them again succeeds and returns
    them unchanged. *)
Theorem tools_validation_idempotent :
  forall (t : Tool) (args validated : jsval),
    In t Tools.tools ->
    zparse (tool_schema t) args = Some validated ->
    zparse (tool_schema t) validated = Some validated.
Proof.
  intros t args validated Ht H.
  exact (zparse_reparse _ (tool_schemas_distinct_keys t Ht) _ _ H).
Qed.

Lemma zparse_string_inv (x x' : jsval) :
  zparse ZString x = Some x' -> exists s, x = JStr s /\ x' = JStr s.
Proof.
  destruct x; simpl; try discriminate. intros H; inversion H; eauto.
Qed.

Lemma zparse_boolean_inv (x x' : jsval) :
  zparse ZBoolean x = Some x' -> exists b, x = JBool b /\ x' = JBool b.
Proof.
  destruct x; simpl; try discriminate. intros H; inversion H; eauto.
Qed.

Lemma zparse_literal_inv (l : string) (x x' : jsval) :
  zparse (ZLiteral l) x = Some x' -> x = JStr l /\ x' = JStr l.
Proof.
  destruct x; simpl; try discriminate.
  destruct (String.eqb s l) eqn:E; [| discriminate].
  apply String.eqb_eq in E. subst. intros H; inversion H; auto.
Qed.

Lemma zparse_enum_inv (options : list string) (x x' : jsval) :
  zparse (ZEnum options) x = Some x' ->
  exists s, x = JStr s /\ x' = JStr s /\ In s options.
Proof.
  destruct x; simpl; try discriminate.
  destruct (existsb (String.eqb s) options) eqn:E; [| discriminate].
  intros H; inversion H. exists s. repeat split.
  apply existsb_exists in E as (o & Hin & Ho).
  apply String.eqb_eq in Ho. now subst.
Qed.

Lemma zparse_array_inv (elem : zschema) (x x' : jsval) :
  zparse (ZArray elem) x = Some x' ->
  exists elems out, x = JArr elems /\ x' = JArr out /\
                    zeach elem elems = Some out.
Proof.
  destruct x; try discriminate. rewrite zparse_array.
  destruct (zeach elem elems) as [out |] eqn:E; [| discriminate].
  intros H; inversion H. eauto.
Qed.

Lemma zparse_object_inv (shape : list (string * zschema)) (x x' : jsval) :
  zparse (ZObject shape) x = Some x' ->
  exists members out, x = JObj members /\ x' = JObj out /\
                      zfields members shape = Some out.
Proof.
  destruct x; try discriminate. rewrite zparse_object.
  destruct (zfields members shape) as [out |] eqn:E; [| discriminate].
  intros H; inversion H. eauto.
Qed.

(** One key of a shape: the member must be present and valid. *)
Lemma zfields_cons_inv (members : list (string * jsval)) (k : string)
  (zk : zschema) (sh : list (string * zschema))
  (out : list (string * jsval)) :
  zfields members ((k, zk) :: sh) = Some out ->
  exists x x' rest,
    obj_get k members = Some x /\ zparse zk x = Some x' /\
    zfields members sh = Some rest /\ out = (k, x') :: rest.
Proof.
  rewrite zfields_cons.
  destruct (obj_get k members) as [x |] eqn:Hget; [| discriminate].
  destruct (zparse zk x) as [x' |] eqn:Hx; [| discriminate].
  destruct (zfields members sh) as [rest |] eqn:Hrest; [| discriminate].
  intros H; inversion H. exists x, x', rest. repeat split; assumption.
Qed.

(** X2.  What [patientCreateSchema] returns for the arguments of
    [patient_create] is an object with exactly the five keys of the schema,
    in its order, whatever other keys the arguments had: the resource type
    is ["Patient"], the narrative has exactly a status of the four allowed
    and a text, the gender is one of the four allowed, and the birth date is
    a string. *)
Theorem patient_create_arguments_shape :
  forall args validated : jsval,
    zparse patientCreateSchema args = Some validated ->
    exists (status div gender birthDate : string) (names : list jsval),
      validated
      = JObj [("resourceType", JStr "Patient");
              ("text", JObj [("status", JStr status); ("div", JStr div)]);
              ("name", JArr names);
              ("gender", JStr gender);
              ("birthDate", JStr birthDate)] /\
      In status ["generated"; "extensions"; "additional"; "empty"] /\
      In gender ["male"; "female"; "other"; "unknown"].
Proof.
  intros args validated H.
  apply zparse_object_inv in H as (members & out & -> & -> & H).
  unfold patientCreateShape in H.
  apply zfields_cons_inv in H as (x1 & y1 & r1 & _ & H1 & H & ->).
  apply zfields_cons_inv in H as (x2 & y2 & r2 & _ & H2 & H & ->).
  apply zfields_cons_inv in H as (x3 & y3 & r3 & _ & H3 & H & ->).
  apply zfields_cons_inv in H as (x4 & y4 & r4 & _ & H4 & H & ->).
  apply zfields_cons_inv in H as (x5 & y5 & r5 & _ & H5 & H & ->).
  inversion H; subst r5.
  apply zparse_literal_inv in H1 as [_ ->].
  apply zparse_array_inv in H3 as (elems & names & _ & -> & _).
  apply zparse_enum_inv in H4 as (gender & _ & -> & Hgender).
  apply zparse_string_inv in H5 as (birthDate & _ & ->).
  apply zparse_object_inv in H2 as (tm & tout & _ & -> & H2).
  apply zfields_cons_inv in H2 as (s1 & t1 & q1 & _ & Hs1 & H2 & ->).
  apply zfields_cons_inv in H2 as (s2 & t2 & q2 & _ & Hs2 & H2 & ->).
  inversion H2; subst q2.
  apply zparse_enum_inv in Hs1 as (status & _ & -> & Hstatus).
  apply zparse_string_inv in Hs2 as (div & _ & ->).
  exists status, div, gender, birthDate, names. auto.
Qed.

(** X3.  [patientSchema] extends [patientCreateSchema] with the key [id]:
    whatever it accepts, [patientCreateSchema] accepts too, and the two
    results differ only by the string [id] at the end. *)
Theorem patient_extends_patientCreate :
  forall args validated : jsval,
    zparse patientSchema args = Some validated ->
    exists (members : list (string * jsval)) (id : string),
      validated = JObj (members ++ [("id", JStr id)]) /\
      zparse patientCreateSchema args = Some (JObj members).
Proof.
  intros args validated H.
  apply zparse_object_inv in H as (ms & out & -> & -> & H).
  rewrite zfields_app in H.
  destruct (zfields ms patientCreateShape) as [o1 |] eqn:E1; [| discriminate].
  destruct (zfields ms [("id", ZString)]) as [o2 |] eqn:E2; [| discriminate].
  inversion H; subst out.
  apply zfields_cons_inv in E2 as (x & x' & r & _ & Hx & Hr & ->).
  inversion Hr; subst r.
  apply zparse_string_inv in Hx as (id & _ & ->).
  exists o1, id. split; [reflexivity |].
  unfold patientCreateSchema. rewrite zparse_object, E1. reflexivity.
Qed.

(** X4.  The arguments [resource_draft] has validated hold exactly a boolean
    [approved], and the tool writes that boolean, and nothing else, to
    [resourceApproved]. *)
Theorem resource_draft_writes_boolean :
  forall args validated : jsval,
    zparse (tool_schema Tools.resourceApprovalTool) args = Some validated ->
    exists b : bool,
      validated = JObj [("approved", JBool b)] /\
      tool_handler Tools.resourceApprovalTool validated
      = {| u_messages := None; u_sender := None; u_patientCreate := None;
           u_patient := None; u_patientUpdate := None;
           u_resourceApproved := Some (JBool b) |}.
Proof.
  intros args validated H.
  change (tool_schema Tools.resourceApprovalTool)
    with (ZObject [("approved", ZBoolean)]) in H.
  apply zparse_object_inv in H as (ms & out & -> & -> & H).
  apply zfields_cons_inv in H as (x & x' & r & _ & Hx & Hr & ->).
  inversion Hr; subst r.
  apply zparse_boolean_inv in Hx as (b & _ & ->).
  exists b. split; reflexivity.
Qed.

End ZodProperties.

(** ** Routing after the tool results *)

Lemma sender_is (s : AgentState) (nm : string) :
  sender s = JStr nm ->
  forall other, strict_eq_str (sender s) other = String.eqb nm other.
Proof. intros -> other. reflexivity. Qed.

(** X5.  The routing function on [ToolMessageUpdateState], read backwards:
    it selects [ApproveResource] exactly when the approver spoke last and
    [resourceApproved] is truthy; [DraftResourceApprove] exactly when one of
    the two drafting agents spoke last; [PatientUpdate] exactly when the
    approver spoke last, the draft is not approved and there is no creation
    draft; and [PatientCreate] in every other case. *)
Theorem afterToolMessageUpdateState_cases :
  forall s : AgentState,
    (New.afterToolMessageUpdateState s = "ApproveResource" <->
     sender s = JStr "Draft resource approver" /\
     truthy (resourceApproved s) = true) /\
    (New.afterToolMessageUpdateState s = "DraftResourceApprove" <->
     sender s = JStr "Patient creater" \/ sender s = JStr "Patient updater") /\
    (New.afterToolMessageUpdateState s = "PatientUpdate" <->
     sender s = JStr "Draft resource approver" /\
     truthy (resourceApproved s) = false /\
     truthy (patientCreate s) = false) /\
    (New.afterToolMessageUpdateState s = "PatientCreate" <->
     ~ (sender s = JStr "Patient creater" \/ sender s = JStr "Patient updater"
        \/ (sender s = JStr "Draft resource approver" /\
            (truthy (resourceApproved s) = true \/
             truthy (patientCreate s) = false)))).
Proof.
  intros s. unfold New.afterToolMessageUpdateState.
  destruct (strict_eq_str (sender s) "Patient creater") eqn:E1.
  { apply strict_eq_str_spec in E1. rewrite E1.
    repeat split; try discriminate; try tauto;
      try (intros [H _]; discriminate H); intros H; exfalso; tauto. }
  destruct (strict_eq_str (sender s) "Patient updater") eqn:E2.
  { apply strict_eq_str_spec in E2. rewrite E2.
    repeat split; try discriminate; try tauto;
      try (intros [H _]; discriminate H); intros H; exfalso; tauto. }
  apply strict_eq_str_false in E1, E2.
  destruct (strict_eq_str (sender s) "Draft resource approver") eqn:E3.
  - apply strict_eq_str_spec in E3.
    destruct (truthy (resourceApproved s)), (truthy (patientCreate s));
      repeat split; try discriminate; try tauto;
      try (intros (_ & H & _); discriminate H);
      try (intros (_ & _ & H); discriminate H);
      try (intros [_ H]; discriminate H);
      try (intros [H | H]; congruence);
      try (intros H; exfalso; tauto);
      try (intros _ [H | [H | [_ [H | H]]]]; congruence).
  - apply strict_eq_str_false in E3.
    repeat split; try discriminate; try tauto;
      try (intros [H _]; congruence);
      try (intros [H | H]; congruence);
      try (intros _ [H | [H | [H _]]]; congruence).
Qed.

Lemma callToolElse_range (n : string) (state : AgentState) :
  New.callToolElse (fun _ => n) state = "CallTool" \/
  New.callToolElse (fun _ => n) state = n.
Proof.
  unfold New.callToolElse.
  destruct (has_tool_calls _); [left | right]; reflexivity.
Qed.

Lemma afterToolMessageUpdateState_range (s : AgentState) :
  In (New.afterToolMessageUpdateState s)
    ["DraftResourceApprove"; "ApproveResource"; "PatientCreate";
     "PatientUpdate"].
Proof.
  unfold New.afterToolMessageUpdateState.
  repeat match goal with
         | |- context [if ?b then _ else _] => destruct b
         end; simpl; tauto.
Qed.

(** X6.  The graph of [utilities/new.ts] is closed: from the start and from
    every node, on every state, the routing finds its destinations, and all
    of them are nodes of the graph; [ApproveResource] is the only node with
    no way out. *)
Theorem workflow_routes_to_declared_nodes :
  forall (n : string) (s : AgentState),
    In n (START :: nodes New.workflow) ->
    exists targets : list string,
      next_nodes New.workflow n s = Some targets /\
      (forall t, In t targets -> In t (nodes New.workflow)) /\
      (targets = [] <-> n = "ApproveResource").
Proof.
  intros n s Hn. simpl in Hn.
  destruct Hn as [<- | [<- | [<- | [<- | [<- | [<- | [<- | []]]]]]]].
  - exists ["PatientCreate"]. split; [reflexivity |].
    split; [simpl; intuition | split; discriminate].
  - exists [New.callToolElse (fun _ => "PatientCreate") s].
    split; [reflexivity |]. split; [| split; discriminate].
    intros t [<- | []].
    destruct (callToolElse_range "PatientCreate" s) as [-> | ->];
      simpl; tauto.
  - exists [New.callToolElse (fun _ => "PatientUpdate") s].
    split; [reflexivity |]. split; [| split; discriminate].
    intros t [<- | []].
    destruct (callToolElse_range "PatientUpdate" s) as [-> | ->];
      simpl; tauto.
  - exists [New.callToolElse (fun _ => "DraftResourceApprove") s].
    split; [reflexivity |]. split; [| split; discriminate].
    intros t [<- | []].
    destruct (callToolElse_range "DraftResourceApprove" s) as [-> | ->];
      simpl; tauto.
  - exists []. split; [reflexivity |].
    split; [intros t [] | split; reflexivity].
  - exists ["ToolMessageUpdateState"]. split; [reflexivity |].
    split; [simpl; intuition | split; discriminate].
  - exists [New.afterToolMessageUpdateState s].
    split; [reflexivity |]. split; [| split; discriminate].
    intros t [<- | []].
    pose proof (afterToolMessageUpdateState_range s) as H.
    simpl in H. simpl. intuition.
Qed.

(** ** What the nodes change *)

(** The state after an agent node: the reply is appended, the sender is the
    agent, and nothing else moves. *)
Lemma runAgentNode_merged (state : AgentState) (agent : New.Runnable)
  (nm : string) (u : Update) :
  New.runAgentNode state agent nm = Returned u ->
  exists reply : BaseMessage,
    agent state = Replied reply /\
    sender state <> JStr nm /\
    u = New.spread_with state [reply] nm /\
    New.merge state u
    = {| messages := messages state ++ [reply];
         sender := JStr nm;
         patientCreate := patientCreate state;
         patient := patient state;
         patientUpdate := patientUpdate state;
         resourceApproved := resourceApproved state |}.
Proof.
  unfold New.runAgentNode.
  destruct (strict_eq_str (sender state) nm) eqn:E; [discriminate |].
  apply strict_eq_str_false in E.
  destruct (agent state) as [reply | e]; [| discriminate].
  intros H; inversion H; subst u. exists reply. repeat split; auto.
Qed.

(** X7.  An agent node that returns has invoked its agent on the state it
    was given, and merging its update appends exactly the agent's reply to
    the history, makes the agent the sender, and leaves the drafts, the
    patient and the approval as they were. *)
Theorem runAgentNode_changes_history_and_sender :
  forall (state : AgentState) (agent : New.Runnable) (nm : string)
         (u : Update),
    New.runAgentNode state agent nm = Returned u ->
    exists reply : BaseMessage,
      agent state = Replied reply /\
      New.merge state u
      = {| messages := messages state ++ [reply];
           sender := JStr nm;
           patientCreate := patientCreate state;
           patient := patient state;
           patientUpdate := patientUpdate state;
           resourceApproved := resourceApproved state |}.
Proof.
  intros state agent nm u H.
  destruct (runAgentNode_merged _ _ _ _ H) as (reply & Hr & _ & _ & Hm).
  exists reply. split; assumption.
Qed.

Lemma draftResourceApproveNode_merged (agent : New.Runnable)
  (stringify : jsval -> string) (state : AgentState) (u : Update) :
  New.draftResourceApproveNode agent stringify state = Returned u ->
  exists reply : BaseMessage,
    agent (New.with_message state (approval_prompt stringify state))
    = Replied reply /\
    u_messages u = Some [reply] /\
    New.merge state u
    = {| messages := messages state ++ [reply];
         sender := JStr "Draft resource approver";
         patientCreate := patientCreate state;
         patient := patient state;
         patientUpdate := patientUpdate state;
         resourceApproved := resourceApproved state |}.
Proof.
  unfold New.draftResourceApproveNode.
  fold (approval_prompt stringify state).
  destruct (New.runAgentNode _ agent "Draft resource approver")
    as [result | r | e] eqn:E; try discriminate.
  destruct (runAgentNode_merged _ _ _ _ E) as (reply & Hr & _ & -> & _).
  intros H; inversion H; subst u. exists reply. repeat split; auto.
Qed.

(** X8.  The approval node shows its system prompt to the agent only: the
    agent is invoked on the history followed by the prompt, and merging the
    node's update appends the agent's reply alone, so the prompt never
    enters the history; the sender becomes the approver and the other
    channels stay. *)
Theorem draftResourceApproveNode_keeps_prompt_out :
  forall (agent : New.Runnable) (stringify : jsval -> string)
         (state : AgentState) (u : Update),
    New.draftResourceApproveNode agent stringify state = Returned u ->
    exists reply : BaseMessage,
      agent (New.with_message state (approval_prompt stringify state))
      = Replied reply /\
      messages (New.with_message state (approval_prompt stringify state))
      = messages state ++ [approval_prompt stringify state] /\
      New.merge state u
      = {| messages := messages state ++ [reply];
           sender := JStr "Draft resource approver";
           patientCreate := patientCreate state;
           patient := patient state;
           patientUpdate := patientUpdate state;
           resourceApproved := resourceApproved state |}.
Proof.
  intros agent stringify state u H.
  destruct (draftResourceApproveNode_merged _ _ _ _ H)
    as (reply & Hr & _ & Hm).
  exists reply. repeat split; assumption.
Qed.

Lemma tool_or_after_reply (n : string) (s : AgentState)
  (history : list BaseMessage) (reply : BaseMessage) :
  In n New.agent_nodes ->
  messages s = history ++ [reply] ->
  next_nodes New.workflow n s
  = Some [if has_tool_calls (Some reply) then "CallTool" else n].
Proof.
  intros Hn Hm. rewrite (new_agent_nodes_route n s Hn).
  unfold New.callToolElse, last_message. rewrite Hm, last_snoc. reflexivity.
Qed.

(** X9.  After each of the three agent nodes the agent's reply alone decides
    the next node: the Tool Dispatcher when the reply asks for at least one
    tool, the node itself otherwise; what the history held before plays no
    part. *)
Theorem agent_reply_decides_next_node :
  forall (a1 a2 a3 : New.Runnable) (stringify : jsval -> string)
         (state : AgentState) (u : Update),
    (New.patientCreateNode a1 state = Returned u ->
     exists reply, a1 state = Replied reply /\
       next_nodes New.workflow "PatientCreate" (New.merge state u)
       = Some [if has_tool_calls (Some reply) then "CallTool"
               else "PatientCreate"]) /\
    (New.patientUpdateNode a2 state = Returned u ->
     exists reply, a2 state = Replied reply /\
       next_nodes New.workflow "PatientUpdate" (New.merge state u)
       = Some [if has_tool_calls (Some reply) then "CallTool"
               else "PatientUpdate"]) /\
    (New.draftResourceApproveNode a3 stringify state = Returned u ->
     exists reply,
       a3 (New.with_message state (approval_prompt stringify state))
       = Replied reply /\
       next_nodes New.workflow "DraftResourceApprove" (New.merge state u)
       = Some [if has_tool_calls (Some reply) then "CallTool"
               else "DraftResourceApprove"]).
Proof.
  intros a1 a2 a3 stringify state u. split; [| split]; intros H.
  - destruct (runAgentNode_merged _ _ _ _ H) as (reply & Hr & _ & _ & Hm).
    exists reply. split; [exact Hr |].
    apply (tool_or_after_reply _ _ (messages state)); [simpl; tauto |].
    now rewrite Hm.
  - destruct (runAgentNode_merged _ _ _ _ H) as (reply & Hr & _ & _ & Hm).
    exists reply. split; [exact Hr |].
    apply (tool_or_after_reply _ _ (messages state)); [simpl; tauto |].
    now rewrite Hm.
  - destruct (draftResourceApproveNode_merged _ _ _ _ H)
      as (reply & Hr & _ & Hm).
    exists reply. split; [exact Hr |].
    apply (tool_or_after_reply _ _ (messages state)); [simpl; tauto |].
    now rewrite Hm.
Qed.

(** X10.  No update the code builds leaves two drafts pending: from a state
    with at most one of [patientCreate] and [patientUpdate] set, the update
    of an agent node, of the approval node, of [approveResourceNode] and of
    every tool of the registry leads to such a state again. *)
Theorem one_draft_preserved :
  forall s : AgentState,
    one_draft s ->
    (forall (agent : New.Runnable) (nm : string) (u : Update),
        New.runAgentNode s agent nm = Returned u ->
        one_draft (New.merge s u)) /\
    (forall (agent : New.Runnable) (stringify : jsval -> string) (u : Update),
        New.draftResourceApproveNode agent stringify s = Returned u ->
        one_draft (New.merge s u)) /\
    one_draft (New.merge s (New.approveResourceNode s)) /\
    (forall (t : Tool) (args : jsval),
        In t Tools.tools ->
        one_draft (New.merge s (tool_handler t args))).
Proof.
  intros s Hs. split; [| split; [| split]].
  - intros agent nm u H.
    destruct (runAgentNode_merged _ _ _ _ H) as (reply & _ & _ & _ & ->).
    exact Hs.
  - intros agent stringify u H.
    destruct (draftResourceApproveNode_merged _ _ _ _ H)
      as (reply & _ & _ & ->).
    exact Hs.
  - left; reflexivity.
  - intros t args Ht. simpl in Ht.
    destruct Ht as [<- | [<- | [<- | []]]].
    + right; reflexivity.
    + left; reflexivity.
    + exact Hs.
Qed.

(** X11.  A draft written by [patient_update] and then approved becomes the
    patient, with both drafts and the approval cleared and the history and
    the sender of the approval untouched by the tool; a draft written by
    [patient_create] and then approved is lost: the patient is [null]. *)
Theorem approval_promotes_update_drafts_only :
  forall (s : AgentState) (args : jsval),
    (let s1 := New.merge s (tool_handler Tools.patientUpdateTool args) in
     let s2 := New.merge s1 (New.approveResourceNode s1) in
     patient s2 = args /\ patientCreate s2 = JNull /\
     patientUpdate s2 = JNull /\ resourceApproved s2 = JNull /\
     messages s2 = messages s /\ patient s1 = patient s) /\
    (let s1 := New.merge s (tool_handler Tools.patientCreateTool args) in
     let s2 := New.merge s1 (New.approveResourceNode s1) in
     patientCreate s1 = args /\ patient s2 = JNull /\
     patientCreate s2 = JNull /\ patientUpdate s2 = JNull /\
     messages s2 = messages s).
Proof.
  intros s args. split; cbv zeta; repeat split.
Qed.

(** ** The earlier variant *)

Lemma has_tool_calls_as_human (result : BaseMessage) (nm : string) :
  has_tool_calls (Some (Second.as_human result nm)) = false.
Proof. reflexivity. Qed.

(** X12.  [runAgentNode] of the earlier variant records the reply as it is
    when it asks for tools, and otherwise as a human message with the same
    content, named after the agent; either way the recorded message asks
    for tools exactly when the reply did, so [router] on the merged state
    sends a tool request to [call_tool] and anything else on. *)
Theorem second_runAgentNode_relabels_replies :
  forall (state : AgentState) (agent : New.Runnable) (nm : string)
         (u : Update),
    Second.runAgentNode state agent nm = Returned u ->
    exists reply recorded : BaseMessage,
      agent state = Replied reply /\
      u_messages u = Some [recorded] /\
      u_sender u = Some (JStr nm) /\
      recorded = (if has_tool_calls (Some reply) then reply
                  else Second.as_human reply nm) /\
      content recorded = content reply /\
      has_tool_calls (Some recorded) = has_tool_calls (Some reply) /\
      Second.router (Second.merge state u)
      = (if has_tool_calls (Some reply) then "call_tool" else "continue").
Proof.
  intros state agent nm u. unfold Second.runAgentNode.
  destruct (agent state) as [reply | e]; [| discriminate].
  destruct (has_tool_calls (Some reply)) eqn:E; cbn [negb];
    intros H; injection H as <-.
  - exists reply, reply.
    unfold Second.router, Second.merge, apply_channel, last_message,
      New.messages_reducer.
    cbn [u_messages u_sender messages]. rewrite last_snoc, E.
    repeat split; reflexivity.
  - exists reply, (Second.as_human reply nm).
    unfold Second.router, Second.merge, apply_channel, last_message,
      New.messages_reducer.
    cbn [u_messages u_sender messages].
    rewrite last_snoc, has_tool_calls_as_human, ?E.
    repeat split; reflexivity.
Qed.

(** X13.  The earlier [runAgentNode] has no guard against self-talk: on a
    state whose sender is the agent itself, where [runAgentNode] of
    [utilities/new.ts] raises the interrupt without invoking the agent, it
    invokes the agent and returns the reply. *)
Theorem second_runAgentNode_answers_itself :
  forall (state : AgentState) (agent : New.Runnable) (nm : string)
         (reply : BaseMessage),
    sender state = JStr nm ->
    agent state = Replied reply ->
    New.runAgentNode state agent nm = Interrupted "Wait for user input" /\
    exists u : Update,
      Second.runAgentNode state agent nm = Returned u /\
      sender (Second.merge state u) = JStr nm /\
      length (messages (Second.merge state u))
      = S (length (messages state)).
Proof.
  intros state agent nm reply Hs Hr. split.
  - now apply runAgentNode_self.
  - unfold Second.runAgentNode. rewrite Hr. eexists. split; [reflexivity |].
    split; [reflexivity |]. simpl. unfold New.messages_reducer.
    rewrite length_app. simpl. lia.
Qed.

(** X14.  The earlier graph is not closed.  Out of [call_tool] the routing
    finds no destination when the sender is ["user"] (the default) or the
    name of any of the four agents; and out of [resource-approval], without
    approval, the destination is the sender, which for ["user"] is no node
    of the graph. *)
Theorem second_workflow_routes_outside :
  forall (s : AgentState) (nm : string),
    In nm ("user" :: Second.agent_nodes) ->
    sender s = JStr nm ->
    next_nodes Second.workflow "call_tool" s = None /\
    (truthy (resourceApproved s) = false ->
     next_nodes Second.workflow Second.ResourceApproval s = Some [nm]) /\
    ~ In "user" (nodes Second.workflow).
Proof.
  intros s nm Hnm Hs. split; [| split].
  - unfold next_nodes. simpl. unfold branch_target. simpl. rewrite Hs.
    simpl in Hnm.
    destruct Hnm as [<- | [<- | [<- | [<- | [<- | []]]]]]; reflexivity.
  - intros Hno. unfold next_nodes. simpl. unfold branch_target. simpl.
    unfold Second.afterResourceApproval. rewrite Hno, Hs. reflexivity.
  - simpl. intros H.
    repeat (destruct H as [H | H]; [discriminate H |]). exact H.
Qed.

(** ** Applying tool results, continued *)

(** X15.  [toolMessageUpdateStateNode] looks at the last message only: two
    states whose histories end with the same message give the same result,
    whatever the earlier messages (the other result turns of a batch among
    them) and the other channels are; on an empty history it throws a
    [TypeError]; and it never raises the interrupt. *)
Theorem toolMessageUpdateStateNode_reads_only_last :
  (forall (s1 s2 : AgentState) (h1 h2 : list BaseMessage) (m : BaseMessage),
      messages s1 = h1 ++ [m] ->
      messages s2 = h2 ++ [m] ->
      New.toolMessageUpdateStateNode s1 = New.toolMessageUpdateStateNode s2) /\
  (forall s : AgentState,
      messages s = [] -> New.toolMessageUpdateStateNode s = Threw TypeError) /\
  (forall (s : AgentState) (reason : string),
      New.toolMessageUpdateStateNode s <> Interrupted reason).
Proof.
  unfold New.toolMessageUpdateStateNode, last_message.
  split; [| split].
  - intros s1 s2 h1 h2 m H1 H2. rewrite H1, H2, !last_snoc. reflexivity.
  - intros s H. rewrite H. reflexivity.
  - intros s reason. destruct (last (messages s)) as [m |]; [| discriminate].
    destruct (Json.parse (content m)); discriminate.
Qed.

(** ** The sender *)

(** X16.  The sender cannot be cleared.  In [utilities/new.ts] a sender that
    is neither [null] nor [undefined] stays so through any sequence of
    updates; in the earlier variant the reducer never returns [null] or
    [undefined] at all. *)
Theorem sender_cannot_be_cleared :
  (forall (us : list Update) (s : AgentState),
      nullish (sender s) = false ->
      nullish (sender (New.merge_all s us)) = false) /\
  (forall old incoming : jsval,
      nullish (Second.sender_reducer old incoming) = false).
Proof.
  split.
  - intros us s. apply sender_never_cleared.
  - intros old incoming. rewrite second_sender_reducer.
    destruct (nullish incoming) eqn:Hi; [| exact Hi].
    destruct (nullish old) eqn:Ho; [reflexivity | exact Ho].
Qed.

(** ** Rejected arguments *)

Lemma zfields_missing (members : list (string * jsval)) (k : string)
  (shape : list (string * Zod.zschema)) :
  In k (map fst shape) ->
  obj_get k members = None ->
  Zod.zfields members shape = None.
Proof.
  induction shape as [| [k' zk] sh IH]; simpl; intros Hin Hget; [contradiction |].
  destruct Hin as [-> | Hin].
  - now rewrite Hget.
  - rewrite (IH Hin Hget).
    destruct (obj_get k' members) as [x |]; [| reflexivity].
    destruct (Zod.zparse zk x); reflexivity.
Qed.

(** X17.  [patientCreateSchema] rejects arguments that are not an object,
    and an object that lacks any one of its five keys, whatever else the
    object holds. *)
Theorem patient_create_rejects_incomplete :
  (forall args : jsval,
      (forall members, args <> JObj members) ->
      Zod.zparse Zod.patientCreateSchema args = None) /\
  (forall (members : list (string * jsval)) (k : string),
      In k ["resourceType"; "text"; "name"; "gender"; "birthDate"] ->
      obj_get k members = None ->
      Zod.zparse Zod.patientCreateSchema (JObj members) = None).
Proof.
  split.
  - intros args Hno. destruct args; try reflexivity.
    exfalso. exact (Hno members eq_refl).
  - intros members k Hk Hget. unfold Zod.patientCreateSchema.
    rewrite zparse_object.
    rewrite (zfields_missing members k Zod.patientCreateShape Hk Hget).
    reflexivity.
Qed.

(** ** The properties at sample inputs *)

Lemma tools_validation_idempotent_witness :
  Zod.zparse (tool_schema Tools.patientCreateTool) sample_draft
  = Some sample_draft.
Proof.
  apply (tools_validation_idempotent Tools.patientCreateTool noisy_draft).
  - simpl; tauto.
  - reflexivity.
Defined.

Lemma patient_create_arguments_shape_witness :
  exists (status div gender birthDate : string) (names : list jsval),
    sample_draft
    = JObj [("resourceType", JStr "Patient");
            ("text", JObj [("status", JStr status); ("div", JStr div)]);
            ("name", JArr names);
            ("gender", JStr gender);
            ("birthDate", JStr birthDate)] /\
    In status ["generated"; "extensions"; "additional"; "empty"] /\
    In gender ["male"; "female"; "other"; "unknown"].
Proof.
  apply (patient_create_arguments_shape noisy_draft sample_draft).
  reflexivity.
Defined.

Lemma patient_extends_patientCreate_witness :
  exists (members : list (string * jsval)) (id : string),
    JObj (sample_patient_members ++ [("id", JStr "p-1")])
    = JObj (members ++ [("id", JStr id)]) /\
    Zod.zparse Zod.patientCreateSchema noisy_patient = Some (JObj members).
Proof.
  apply (patient_extends_patientCreate noisy_patient).
  reflexivity.
Defined.

Lemma resource_draft_writes_boolean_witness :
  exists b : bool,
    JObj [("approved", JBool true)] = JObj [("approved", JBool b)] /\
    tool_handler Tools.resourceApprovalTool (JObj [("approved", JBool true)])
    = {| u_messages := None; u_sender := None; u_patientCreate := None;
         u_patient := None; u_patientUpdate := None;
         u_resourceApproved := Some (JBool b) |}.
Proof.
  apply (resource_draft_writes_boolean approval_arguments).
  reflexivity.
Defined.

Lemma afterToolMessageUpdateState_cases_witness :
  New.afterToolMessageUpdateState creation_path_state = "ApproveResource".
Proof.
  apply (proj1 (afterToolMessageUpdateState_cases creation_path_state)).
  split; reflexivity.
Defined.

Lemma workflow_routes_to_declared_nodes_witness :
  exists targets : list string,
    next_nodes New.workflow "ToolMessageUpdateState" creation_path_state
    = Some targets /\
    (forall t, In t targets -> In t (nodes New.workflow)) /\
    (targets = [] <-> "ToolMessageUpdateState" = "ApproveResource").
Proof.
  apply (workflow_routes_to_declared_nodes "ToolMessageUpdateState"
           creation_path_state).
  simpl; tauto.
Defined.

Lemma runAgentNode_changes_history_and_sender_witness :
  exists reply : BaseMessage,
    asks_for_name sample_history = Replied reply /\
    New.merge sample_history
      (New.spread_with sample_history [AIMessage "Which name?" []]
         "Patient creater")
    = {| messages := messages sample_history ++ [reply];
         sender := JStr "Patient creater";
         patientCreate := patientCreate sample_history;
         patient := patient sample_history;
         patientUpdate := patientUpdate sample_history;
         resourceApproved := resourceApproved sample_history |}.
Proof.
  apply (runAgentNode_changes_history_and_sender sample_history asks_for_name
           "Patient creater").
  reflexivity.
Defined.

Lemma draftResourceApproveNode_keeps_prompt_out_witness :
  exists reply : BaseMessage,
    requests_approval
      (New.with_message creater_spoke (approval_prompt braces creater_spoke))
    = Replied reply /\
    messages
      (New.with_message creater_spoke (approval_prompt braces creater_spoke))
    = messages creater_spoke ++ [approval_prompt braces creater_spoke] /\
    New.merge creater_spoke
      (New.spread_with creater_spoke [AIMessage EmptyString [approval_call]]
         "Draft resource approver")
    = {| messages := messages creater_spoke ++ [reply];
         sender := JStr "Draft resource approver";
         patientCreate := patientCreate creater_spoke;
         patient := patient creater_spoke;
         patientUpdate := patientUpdate creater_spoke;
         resourceApproved := resourceApproved creater_spoke |}.
Proof.
  apply (draftResourceApproveNode_keeps_prompt_out requests_approval braces
           creater_spoke).
  reflexivity.
Defined.

Lemma agent_reply_decides_next_node_witness :
  exists reply : BaseMessage,
    requests_approval
      (New.with_message creater_spoke (approval_prompt braces creater_spoke))
    = Replied reply /\
    next_nodes New.workflow "DraftResourceApprove"
      (New.merge creater_spoke
         (New.spread_with creater_spoke
            [AIMessage EmptyString [approval_call]]
            "Draft resource approver"))
    = Some [if has_tool_calls (Some reply) then "CallTool"
            else "DraftResourceApprove"].
Proof.
  apply (proj2 (proj2 (agent_reply_decides_next_node asks_for_name
                         asks_for_name requests_approval braces creater_spoke
                         _))).
  reflexivity.
Defined.

Lemma one_draft_preserved_witness :
  one_draft
    (New.merge creation_path_state
       (tool_handler Tools.patientUpdateTool
          (JObj (sample_patient_members ++ [("id", JStr "p-1")])))).
Proof.
  apply (proj2 (proj2 (proj2
           (one_draft_preserved creation_path_state (or_intror eq_refl))))).
  simpl; tauto.
Defined.

Lemma second_runAgentNode_relabels_replies_witness :
  exists reply recorded : BaseMessage,
    asks_for_name sample_history = Replied reply /\
    u_messages relabelled_update = Some [recorded] /\
    u_sender relabelled_update = Some (JStr Second.PatientCreate) /\
    recorded = (if has_tool_calls (Some reply) then reply
                else Second.as_human reply Second.PatientCreate) /\
    content recorded = content reply /\
    has_tool_calls (Some recorded) = has_tool_calls (Some reply) /\
    Second.router (Second.merge sample_history relabelled_update)
    = (if has_tool_calls (Some reply) then "call_tool" else "continue").
Proof.
  apply (second_runAgentNode_relabels_replies sample_history asks_for_name
           Second.PatientCreate relabelled_update).
  reflexivity.
Defined.

Lemma second_runAgentNode_answers_itself_witness :
  New.runAgentNode creater_spoke asks_for_name "Patient creater"
  = Interrupted "Wait for user input" /\
  exists u : Update,
    Second.runAgentNode creater_spoke asks_for_name "Patient creater"
    = Returned u /\
    sender (Second.merge creater_spoke u) = JStr "Patient creater" /\
    length (messages (Second.merge creater_spoke u))
    = S (length (messages creater_spoke)).
Proof.
  apply (second_runAgentNode_answers_itself creater_spoke asks_for_name
           "Patient creater" (AIMessage "Which name?" [])).
  - reflexivity.
  - reflexivity.
Defined.

Lemma second_workflow_routes_outside_witness :
  next_nodes Second.workflow "call_tool" sample_history = None /\
  (truthy (resourceApproved sample_history) = false ->
   next_nodes Second.workflow Second.ResourceApproval sample_history
   = Some ["user"]) /\
  ~ In "user" (nodes Second.workflow).
Proof.
  apply (second_workflow_routes_outside sample_history "user").
  - simpl; tauto.
  - reflexivity.
Defined.

Lemma toolMessageUpdateStateNode_reads_only_last_witness :
  New.toolMessageUpdateStateNode New.initial_state = Threw TypeError.
Proof.
  apply (proj1 (proj2 toolMessageUpdateStateNode_reads_only_last)).
  reflexivity.
Defined.

Lemma sender_cannot_be_cleared_witness :
  nullish
    (sender (New.merge_all sample_history
               [sample_reply; New.approveResourceNode sample_history]))
  = false.
Proof.
  apply (proj1 sender_cannot_be_cleared). reflexivity.
Defined.

Lemma patient_create_rejects_incomplete_witness :
  Zod.zparse Zod.patientCreateSchema (JObj incomplete_draft) = None.
Proof.
  apply (proj2 patient_create_rejects_incomplete incomplete_draft "birthDate").
  - simpl; tauto.
  - reflexivity.
Defined.
